(** * ml_tooling: target/feature distribution plot and SQL data set

    A shallow embedding of

    - [ml_tooling/plots/target_feature_distribution.py]
      ([plot_target_feature_distribution]), and
    - [ml_tooling/data/sql.py] ([SQLDataSet.__init__] and
      [SQLDataSet.__repr__]).

    Conventions of the embedding.

    - An element of a float64 array is the rational it denotes, or NaN
      ([float64]).  Arithmetic is exact: rounding and the infinities are
      not part of the model.  No property below is one that the rounding
      of a sum, a mean or a percentile would decide.
    - An [ndarray] is a float array or a string array; [np.isnan] is only
      defined on the former and raises [TypeError] on the latter.
    - A Python exception is a value of [exception]; a call returns
      [Ok v] or [Raise e] ([result]).
    - numpy's global random generator is an explicit [RandomState] that
      every sampling function takes and returns.
    - [plot_target_feature_distribution] stops where the drawing starts:
      its outcome is the [chart] record holding the values the function
      hands to [_plot_barh] and [axvline].  The two drawing calls are
      added by [draw_target_feature_distribution], with [_plot_barh]
      (which is not among the sources) as a parameter and, of matplotlib's
      [axvline], the handling of keyword arguments only. *)

From Stdlib Require Import QArith Qcanon Qround Lia.
From stdpp Require Import base decidable option numbers list sorting strings gmap.

Local Open Scope Z_scope.
Local Open Scope nat_scope.

(** ** Exceptions and results *)

Inductive exception : Type :=
  | VizError (msg : string)
  | KeyError (key : string)
  | TypeError (msg : string)
  | IndexError (msg : string)
  | ValueError (msg : string)
  | AttributeError (msg : string).

Inductive result (A : Type) : Type :=
  | Ok (a : A)
  | Raise (e : exception).
Arguments Ok {A} a.
Arguments Raise {A} e.

#[global] Instance result_ret : MRet result := λ A a, Ok a.
#[global] Instance result_bind : MBind result := λ A B k m,
  match m with
  | Ok a => k a
  | Raise e => Raise e
  end.
#[global] Instance result_fmap : FMap result := λ A B k m,
  match m with
  | Ok a => Ok (k a)
  | Raise e => Raise e
  end.

Definition is_Raise {A} (r : result A) : Prop :=
  match r with
  | Ok _ => False
  | Raise _ => True
  end.

(** ** float64 scalars *)

Inductive float64 : Type :=
  | Num (q : Qc)
  | NaN.

#[global] Instance float64_eq_dec : EqDecision float64.
Proof. solve_decision. Defined.
#[global] Instance float64_inhabited : Inhabited float64 := populate NaN.

Definition of_Z (n : Z) : float64 := Num (Qc_of_Z n).
Definition of_nat (n : nat) : float64 := of_Z (Z.of_nat n).

(** [math.isnan] on one element. *)
Definition isnan (x : float64) : bool :=
  match x with
  | NaN => true
  | Num _ => false
  end.

Definition fadd (x y : float64) : float64 :=
  match x, y with
  | Num a, Num b => Num (a + b)%Qc
  | _, _ => NaN
  end.

Definition fsub (x y : float64) : float64 :=
  match x, y with
  | Num a, Num b => Num (a - b)%Qc
  | _, _ => NaN
  end.

Definition fmul (x y : float64) : float64 :=
  match x, y with
  | Num a, Num b => Num (a * b)%Qc
  | _, _ => NaN
  end.

(** Division; [0 / 0] is NaN, which is how [np.mean] of an empty array
    comes out.  A nonzero numerator over zero would be an infinity and is
    given as NaN too. *)
Definition fdiv (x y : float64) : float64 :=
  match x, y with
  | Num a, Num b => if decide (b = 0%Qc) then NaN else Num (a / b)%Qc
  | _, _ => NaN
  end.

(** [x == y] on floats: NaN equals nothing. *)
Definition np_equal (x y : float64) : bool :=
  match x, y with
  | Num a, Num b => bool_decide (a = b)
  | _, _ => false
  end.

(** The order [ndarray.sort] uses: numeric, NaN last. *)
Definition float_le (x y : float64) : Prop :=
  match x, y with
  | Num a, Num b => (a <= b)%Qc
  | _, NaN => True
  | NaN, Num _ => False
  end.

#[global] Instance float_le_dec : RelDecision float_le.
Proof.
  intros [a|] [b|]; simpl; [apply Qc_le_dec | left | right | left]; tauto.
Defined.

Definition float_lt (x y : float64) : Prop :=
  match x, y with
  | Num a, Num b => (a < b)%Qc
  | _, _ => False
  end.

(** ** Arrays *)

Inductive ndarray : Type :=
  | FloatArr (l : list float64)
  | StrArr (l : list string).

(** [np.isnan(a)]: elementwise on a float array; the ufunc has no loop for
    a string dtype. *)
Definition np_isnan (a : ndarray) : result (list bool) :=
  match a with
  | FloatArr l => Ok (map isnan l)
  | StrArr _ => Raise (TypeError "ufunc 'isnan' not supported for the input types")
  end.

(** [mask.any()] *)
Definition any (mask : list bool) : bool := existsb id mask.

(** [a.sort()] *)
Definition np_sort (a : list float64) : list float64 := merge_sort float_le a.

(** The mask [ar[1:] != ar[:-1]], preceded by [True], applied to [ar]:
    an element is kept when it differs from its predecessor. *)
Fixpoint keep_changes (prev : float64) (ar : list float64) : list float64 :=
  match ar with
  | [] => []
  | x :: ar' =>
      if np_equal x prev then keep_changes x ar' else x :: keep_changes x ar'
  end.

(** [np.unique(ar)]: sort, then keep the first of every run. *)
Definition np_unique (ar : list float64) : list float64 :=
  match np_sort ar with
  | [] => []
  | x :: ar' => x :: keep_changes x ar'
  end.

(** [a == scalar], elementwise. *)
Definition equal_scalar (a : list float64) (c : float64) : list bool :=
  map (λ x, np_equal x c) a.

Fixpoint compress (a : list float64) (mask : list bool) : list float64 :=
  match a, mask with
  | x :: a', b :: mask' => if b then x :: compress a' mask' else compress a' mask'
  | _, _ => []
  end.

(** [a[mask]] with a boolean mask: the mask must be as long as the array. *)
Definition bool_index (a : list float64) (mask : list bool) : result (list float64) :=
  if decide (length a = length mask) then Ok (compress a mask)
  else Raise (IndexError "boolean index did not match indexed array").

(** ** Reductions *)

Definition fsum (a : list float64) : float64 := foldr fadd (of_Z 0) a.

(** [np.mean(a)]: the sum over the number of elements.  numpy rounds the
    sum and the quotient to float64; here both are exact. *)
Definition np_mean (a : list float64) : float64 := fdiv (fsum a) (of_nat (length a)).

(** [np.median(a)]: NaN if any element is NaN or the array is empty, else
    the middle of the sorted array (the mean of the two middle elements for
    an even length). *)
Definition np_median (a : list float64) : float64 :=
  let n := length a in
  let s := np_sort a in
  if any (map isnan a) then NaN
  else if decide (n = 0) then NaN
  else if Nat.odd n then s !!! (n / 2)
  else np_mean [s !!! (n / 2 - 1); s !!! (n / 2)].

(** Linear interpolation [a + (b - a) * t]. *)
Definition lerp (a b : float64) (t : Qc) : float64 :=
  fadd a (fmul (fsub b a) (Num t)).

(** [np.percentile(a, q)] with the default linear method: the virtual index
    [(n - 1) * q / 100] is split into its floor and its fractional part, and
    the result interpolates between the two neighbouring order statistics.
    As in [np_mean], the arithmetic is exact where numpy rounds. *)
Definition np_percentile (a : list float64) (q : Qc) : float64 :=
  let n := length a in
  let s := np_sort a in
  if any (map isnan a) then NaN
  else if decide (n = 0) then NaN
  else
    let virtual_index := (Qc_of_Z (Z.of_nat (n - 1)) * (q / Qc_of_Z 100))%Qc in
    let previous := Z.to_nat (Qfloor virtual_index) in
    let next := Nat.min (previous + 1) (n - 1) in
    let gamma := (virtual_index - Qc_of_Z (Z.of_nat previous))%Qc in
    lerp (s !!! previous) (s !!! next) gamma.

(** [a.reshape((rows, -1))], as the list of rows. *)
Fixpoint split_rows (rows cols : nat) (a : list float64) : list (list float64) :=
  match rows with
  | O => []
  | S rows' => take cols a :: split_rows rows' cols (drop cols a)
  end.

Definition reshape (a : list float64) (rows : nat) : result (list (list float64)) :=
  if decide (rows = 0) then Raise (ValueError "cannot reshape array")
  else if decide (length a `mod` rows = 0) then Ok (split_rows rows (length a `div` rows) a)
  else Raise (ValueError "cannot reshape array").

(** Column [j] of a matrix given by rows. *)
Definition column (m : list (list float64)) (j : nat) : list float64 :=
  map (λ row : list float64, row !!! j) m.

(** [np.mean(m, axis=0)]: one mean per column. *)
Definition np_mean_axis0 (m : list (list float64)) : list float64 :=
  match m with
  | [] => []
  | row :: _ => map (λ j, np_mean (column m j)) (seq 0 (length row))
  end.

(** ** The random generator *)

(** The state of the global generator is the stream of raw draws it has
    yet to deliver.  Every sequence of in-range indices is delivered by
    some stream, so a statement about all states covers all that the
    generator can do. *)
Definition RandomState : Type := nat → nat.

(** One index below [high]. *)
Definition randint (high : nat) (g : RandomState) : nat * RandomState :=
  (g 0 `mod` high, λ k, g (S k)).

Fixpoint randints (high size : nat) (g : RandomState) : list nat * RandomState :=
  match size with
  | O => ([], g)
  | S size' =>
      let '(i, g1) := randint high g in
      let '(idx, g2) := randints high size' g1 in
      (i :: idx, g2)
  end.

(** [np.random.choice(a, size=size, replace=True)] *)
Definition np_random_choice (a : list float64) (size : Z) (g : RandomState)
    : result (list float64 * RandomState) :=
  if decide (size < 0)%Z then Raise (ValueError "negative dimensions are not allowed")
  else if decide (length a = 0 ∧ size ≠ 0%Z)
  then Raise (ValueError "a cannot be empty unless no samples are taken")
  else
    let '(idx, g') := randints (length a) (Z.to_nat size) g in
    Ok (map (λ i, a !!! i) idx, g').

(** ** [plot_target_feature_distribution] *)

Definition nan_msg : string :=
  "Target feature distribution plot only works if feature and target do not contain NaN Values".
Definition limit_msg : string := "Should there be a limit".

(** [{"mean": np.mean, "median": np.median}] *)
Definition agg_func_mapping : gmap string (list float64 → float64) :=
  {[ "mean" := np_mean; "median" := np_median ]}.

(** [mapping[key]] *)
Definition getitem {V} (mapping : gmap string V) (key : string) : result V :=
  match mapping !! key with
  | Some v => Ok v
  | None => Raise (KeyError key)
  end.

(** The elements of an array that is known to hold floats. *)
Definition float_data (a : ndarray) : result (list float64) :=
  match a with
  | FloatArr l => Ok l
  | StrArr _ => Raise (TypeError "not a float array")
  end.

(** [np.zeros((rows, cols))] *)
Definition np_zeros (rows cols : nat) : list (list float64) :=
  replicate rows (replicate cols (of_Z 0)).

(** [m[:, i] = values] *)
Definition set_column (m : list (list float64)) (i : nat) (values : list float64)
    : result (list (list float64)) :=
  if decide (Forall (λ row : list float64, i < length row) m)
  then Ok (zip_with (λ (row : list float64) v, <[i:=v]> row) m values)
  else Raise (IndexError "index is out of bounds for axis 1").

(** A [for] loop over [xs] whose body may raise. *)
Fixpoint for_each {A S} (body : S → A → result S) (xs : list A) (st : S) : result S :=
  match xs with
  | [] => Ok st
  | x :: xs' => st' ← body st x; for_each body xs' st'
  end.

Definition q2_5 : Qc := Q2Qc (5 # 2).
Definition q97_5 : Qc := Q2Qc (195 # 2).

(** The body of the bootstrap loop (source lines 78 to 84); the loop state
    is the [percentile] matrix, the counter [i] and the generator. *)
Definition bootstrap_body (target feature : list float64) (n_boots : Z)
    (st : list (list float64) * nat * RandomState) (category : float64)
    : result (list (list float64) * nat * RandomState) :=
  let '(percentile, i, g) := st in
  data_temp ← bool_index target (equal_scalar feature category);
  '(sample, g') ← np_random_choice data_temp (n_boots * Z.of_nat (length data_temp)) g;
  boots_sample ← reshape sample (length data_temp);
  let boots_temp := np_mean_axis0 boots_sample in
  percentile' ← set_column percentile i
                  [np_percentile boots_temp q2_5; np_percentile boots_temp q97_5];
  Ok (percentile', i + 1, g').

(** What the function hands to the drawing layer. *)
Record chart : Type := Chart {
  chart_categories : list float64;           (* first argument of [_plot_barh] *)
  chart_data : list float64;                 (* second argument of [_plot_barh] *)
  chart_title : string;
  chart_x_label : string;
  chart_xerr : option (list (list float64)); (* [percentile if n_boots else None] *)
  chart_axvline : float64                    (* [selected_agg_func(feature)] *)
}.

(** Truth value of the optional integer [n_boots]. *)
Definition truthy (n_boots : option Z) : option Z :=
  match n_boots with
  | Some n => if decide (n = 0%Z) then None else Some n
  | None => None
  end.

(** The function, source lines 48 to 97.  The axes argument and the
    constant arguments of [_plot_barh] are left out.  Past the NaN check
    [feature] is a float array ([np.isnan] raised otherwise), which
    [float_data] unpacks. *)
Definition plot_target_feature_distribution
    (target : list float64) (feature : ndarray) (title method : string)
    (n_boots : option Z) (g : RandomState) : result (chart * RandomState) :=
  target_nan ← any <$> np_isnan (FloatArr target);
  some_nan ← (if target_nan : bool then Ok true else any <$> np_isnan feature);
  if some_nan : bool then Raise (VizError nan_msg) else
  feature ← float_data feature;
  selected_agg_func ← getitem agg_func_mapping method;
  let feature_categories := np_unique feature in
  if decide (15 < length feature_categories) then Raise (VizError limit_msg) else
  data ← mapM (λ category,
                 selected_agg_func <$> bool_index target (equal_scalar feature category))
              feature_categories;
  '(xerr, g') ← match truthy n_boots with
                 | Some n =>
                     let percentile := np_zeros 2 (length feature_categories) in
                     '(percentile, _, g') ←
                        for_each (bootstrap_body target feature n) feature_categories
                                 (percentile, 0, g);
                     Ok (Some percentile, g')
                 | None => Ok (None, g)
                 end;
  Ok (Chart feature_categories data title ("Target compared to " +:+ method) xerr
            (selected_agg_func feature), g').

(** ** The drawing calls *)

(** The value of a keyword argument. *)
Inductive kwarg : Type :=
  | KwFloat (x : float64)
  | KwStr (s : string).

(** matplotlib's [Axes.axvline(x=0, ymin=0, ymax=1, **kwargs)]: the keyword
    [transform] is refused; any other keyword that is not one of the three
    parameters is handed on to the [Line2D] the call creates, as a property
    to set, and a keyword that is no property of a [Line2D] raises
    [AttributeError].  What is drawn is left out. *)
Definition axvline_parameters : list string := ["x"; "ymin"; "ymax"].

Definition Line2D_properties : list string :=
  ["agg_filter"; "alpha"; "animated"; "antialiased"; "aa"; "clip_box"; "clip_on";
   "clip_path"; "color"; "c"; "dash_capstyle"; "dash_joinstyle"; "dashes"; "data";
   "drawstyle"; "ds"; "figure"; "fillstyle"; "gapcolor"; "gid"; "in_layout"; "label";
   "linestyle"; "ls"; "linewidth"; "lw"; "marker"; "markeredgecolor"; "mec";
   "markeredgewidth"; "mew"; "markerfacecolor"; "mfc"; "markerfacecoloralt"; "mfcalt";
   "markersize"; "ms"; "markevery"; "mouseover"; "path_effects"; "picker"; "pickradius";
   "rasterized"; "sketch_params"; "snap"; "solid_capstyle"; "solid_joinstyle";
   "url"; "visible"; "xdata"; "ydata"; "zorder"].

Definition unexpected_keyword (k : string) : string :=
  "Line2D.set() got an unexpected keyword argument '" +:+ k +:+ "'".

Definition axvline (kwargs : list (string * kwarg)) : result unit :=
  if decide ("transform" ∈ kwargs.*1)
  then Raise (ValueError "'transform' is not allowed as a keyword argument")
  else
    match filter (λ k, k ∉ axvline_parameters ++ Line2D_properties) kwargs.*1 with
    | [] => Ok ()
    | k :: _ => Raise (AttributeError (unexpected_keyword k))
    end.

Section Drawing.
(** The axes of matplotlib. *)
Context {Axes : Type}.
(** [ml_tooling.plots.utils._plot_barh], which is not among the sources:
    given the categories, the aggregates, the title, the label of the x
    axis, the axes and the error bars, it returns the axes it drew on, or
    raises.  (Its arguments [add_label] and [y_label] are constants.) *)
Variable _plot_barh :
  list float64 → list float64 → string → string → Axes → option (list (list float64)) →
  result Axes.

(** The function to its end, source lines 48 to 99: the computation of
    [plot_target_feature_distribution], then the call of [_plot_barh]
    (lines 86 to 95) and the call
    [ax.axvline(y=selected_agg_func(feature), linestyle="--", color="red")]
    (line 97) on the axes it returned.  [ax] is the axes passed in, or
    those of [plt.subplots()] (lines 54 and 55). *)
Definition draw_target_feature_distribution
    (target : list float64) (feature : ndarray) (title method : string) (ax : Axes)
    (n_boots : option Z) (g : RandomState) : result (Axes * RandomState) :=
  '(ch, g') ← plot_target_feature_distribution target feature title method n_boots g;
  ax ← _plot_barh (chart_categories ch) (chart_data ch) (chart_title ch)
         (chart_x_label ch) ax (chart_xerr ch);
  _ ← axvline [("y", KwFloat (chart_axvline ch)); ("linestyle", KwStr "--");
               ("color", KwStr "red")];
  Ok (ax, g').
End Drawing.

(** ** [SQLDataSet.__init__] and [SQLDataSet.__repr__] *)

Module SQLDataSet.
Section Init.
(** sqlalchemy's [Connectable] objects (engines, connections) and the
    keyword arguments forwarded to [sa.create_engine]. *)
Context {Connectable Kwargs : Type}.
(** [sa.create_engine(url, **engine_kwargs)], which may itself raise. *)
Variable create_engine : string → Kwargs → result Connectable.

(** The values [conn] may be bound to, by the two classes the
    constructor tests for. *)
Inductive pyobject : Type :=
  | PyConnectable (c : Connectable)
  | PyStr (s : string)
  | PyNone
  | PyInt (n : Z)
  | PyObject (class_name : string).

Definition isinstance_Connectable (o : pyobject) : option Connectable :=
  match o with
  | PyConnectable c => Some c
  | _ => None
  end.

Definition isinstance_str (o : pyobject) : option string :=
  match o with
  | PyStr s => Some s
  | _ => None
  end.

(** The instance after [__init__]: its [engine] attribute. *)
Record instance : Type := MkSQLDataSet { engine : Connectable }.

(** [__init__(self, conn, **engine_kwargs)]: the instance, or the
    exception, together with the calls made to [sa.create_engine]. *)
Definition __init__ (conn : pyobject) (engine_kwargs : Kwargs)
    : result instance * list (string * Kwargs) :=
  match isinstance_Connectable conn with
  | Some c => (Ok (MkSQLDataSet c), [])
  | None =>
      match isinstance_str conn with
      | Some url =>
          (e ← create_engine url engine_kwargs; Ok (MkSQLDataSet e),
           [(url, engine_kwargs)])
      | None => (Raise (ValueError "Invalid connection"), [])
      end
  end.
End Init.

(** [__repr__(self)], from [self.__class__.__name__]. *)
Definition __repr__ (class_name : string) : string :=
  "<" +:+ class_name +:+ " - SQLDataset>".
End SQLDataSet.

(** ** The notions the specification is written in *)

(** No missing value in an array. *)
Definition nan_free (a : list float64) : Prop := NaN ∉ a.

(** The target values whose aligned feature entry is the category [c]. *)
Definition restrict (target feature : list float64) (c : float64) : list float64 :=
  (filter (λ p : float64 * float64, p.2 = c) (zip target feature)).*1.

(** The distinct values occurring in the feature vector. *)
Definition distinct_values (feature : list float64) : list float64 :=
  remove_dups feature.

(** *** The bootstrap, in the specification's words *)

(** [count] draws with replacement from [subset]. *)
Definition draw_with_replacement (subset : list float64) (count : nat) (g : RandomState)
    : list float64 * RandomState :=
  let '(idx, g') := randints (length subset) count g in
  (map (λ i, subset !!! i) idx, g').

(** The draws are split into [n_boots] resamples of [size] draws each:
    resample [j] is made of the draws [j], [n_boots + j], [2 n_boots + j], ... *)
Definition resample (draws : list float64) (n_boots size j : nat) : list float64 :=
  map (λ r, draws !!! (r * n_boots + j)) (seq 0 size).

Definition resamples (draws : list float64) (n_boots size : nat) : list (list float64) :=
  map (resample draws n_boots size) (seq 0 n_boots).

(** The interval of one category: the 2.5th and 97.5th percentiles of the
    means of the resamples. *)
Definition category_interval (subset : list float64) (n_boots : nat) (g : RandomState)
    : (float64 * float64) * RandomState :=
  let '(draws, g') := draw_with_replacement subset (n_boots * length subset) g in
  let means := map np_mean (resamples draws n_boots (length subset)) in
  ((np_percentile means q2_5, np_percentile means q97_5), g').

(** One interval per category, the generator threaded from one category to
    the next. *)
Fixpoint intervals (target feature : list float64) (n_boots : nat)
    (categories : list float64) (g : RandomState)
    : list (float64 * float64) * RandomState :=
  match categories with
  | [] => ([], g)
  | c :: categories' =>
      let '(iv, g1) := category_interval (restrict target feature c) n_boots g in
      let '(ivs, g2) := intervals target feature n_boots categories' g1 in
      (iv :: ivs, g2)
  end.

(** The error bars of the whole call: absent unless [n_boots] is a nonzero
    integer, else the row of lower bounds and the row of upper bounds. *)
Definition error_bars (target feature : list float64) (n_boots : option Z)
    (categories : list float64) (g : RandomState)
    : option (list (list float64)) * RandomState :=
  match truthy n_boots with
  | Some n =>
      let '(ivs, g') := intervals target feature (Z.to_nat n) categories g in
      (Some [ivs.*1; ivs.*2], g')
  | None => (None, g)
  end.

(** A missing value somewhere in an array. *)
Definition contains_nan (a : ndarray) : Prop :=
  match a with
  | FloatArr l => NaN ∈ l
  | StrArr _ => False
  end.

(** The number of distinct labels of a feature array of either dtype. *)
Definition n_categories (a : ndarray) : nat :=
  match a with
  | FloatArr l => length (remove_dups l)
  | StrArr l => length (remove_dups l)
  end.

(** The chart of a call, the generator left out. *)
Definition outcome (r : result (chart * RandomState)) : result chart := fst <$> r.

#[global] Instance exception_eq_dec : EqDecision exception.
Proof. solve_decision. Defined.
#[global] Instance result_eq_dec {A} `{EqDecision A} : EqDecision (result A).
Proof. solve_decision. Defined.
#[global] Instance chart_eq_dec : EqDecision chart.
Proof. solve_decision. Defined.

(** The default of the [title] parameter. *)
Definition default_title : string := "Target feature distribution".

(** [n_boots] as the specification has it: absent, or not negative. *)
Definition n_boots_ok (n_boots : option Z) : Prop :=
  ∀ n, n_boots = Some n → (0 ≤ n)%Z.

(** A generator state to run examples from. *)
Definition g0 : RandomState := λ k, k `div` 2.

(** The arrays of the specification's example, and the same feature with
    the labels "a" and "b" coded as 0 and 1. *)
Definition example_target : list float64 := map of_Z [1; 1; 1; 5; 5; 5]%Z.
Definition example_labels : list string := ["a"; "a"; "a"; "b"; "b"; "b"].
Definition example_codes : list float64 := map of_Z [0; 0; 0; 1; 1; 1]%Z.

(** Sixteen distinct categories, as numbers and as labels. *)
Definition sixteen_codes : list float64 := map of_nat (seq 0 16).
Definition sixteen_labels : list string :=
  ["a"; "b"; "c"; "d"; "e"; "f"; "g"; "h"; "i"; "j"; "k"; "l"; "m"; "n"; "o"; "p"].

(** An exception of the class [VizError]. *)
Definition is_VizError (e : exception) : Prop :=
  match e with
  | VizError _ => True
  | _ => False
  end.

(** Two calls in a row on the same arguments, the second one starting from
    the generator state the first one left. *)
Definition call_twice (target : list float64) (feature : ndarray) (title method : string)
    (n_boots : option Z) (g : RandomState) : result chart * result chart :=
  let first := plot_target_feature_distribution target feature title method n_boots g in
  (outcome first,
   match first with
   | Ok (_, g1) =>
       outcome (plot_target_feature_distribution target feature title method n_boots g1)
   | Raise e => Raise e
   end).

(** Fifteen distinct categories. *)
Definition fifteen_codes : list float64 := map of_nat (seq 0 15).

(** The number of index draws the bootstrap of [categories] takes. *)
Definition draws_taken (target feature : list float64) (n_boots : nat)
    (categories : list float64) : nat :=
  n_boots * sum_list_with (λ c, length (restrict target feature c)) categories.

(** A generator that agrees with [g0] on its first twelve draws only. *)
Definition g0_then_zero : RandomState := λ k, if decide (k < 12) then g0 k else 0.

(** What the call on the coded example hands to the drawing layer. *)
Definition example_chart : chart :=
  {| chart_categories := [of_Z 0; of_Z 1];
     chart_data := [of_Z 1; of_Z 5];
     chart_title := default_title;
     chart_x_label := "Target compared to mean";
     chart_xerr := None;
     chart_axvline := Num (Q2Qc (1 # 2)) |}.

(** * Properties *)

(** ** Floats: equality and order *)

Lemma nan_free_any (a : list float64) : any (map isnan a) = false ↔ nan_free a.
Proof.
  unfold nan_free, any. induction a as [|x a IH]; simpl.
  - split; [intros _; apply not_elem_of_nil | done].
  - rewrite not_elem_of_cons, orb_false_iff, IH. destruct x; simpl; intuition congruence.
Qed.

Lemma any_isnan_true (a : list float64) : any (map isnan a) = true ↔ NaN ∈ a.
Proof.
  destruct (any (map isnan a)) eqn:E.
  - split; [intros _|done]. destruct (decide (NaN ∈ a)) as [|Hn]; [done|].
    apply nan_free_any in Hn. congruence.
  - apply nan_free_any in E. split; [done | intros; by destruct E].
Qed.

Lemma nan_free_cons (x : float64) (a : list float64) :
  nan_free (x :: a) ↔ x ≠ NaN ∧ nan_free a.
Proof. unfold nan_free. rewrite not_elem_of_cons. intuition congruence. Qed.

Lemma nan_free_Permutation (a b : list float64) : a ≡ₚ b → nan_free a → nan_free b.
Proof. unfold nan_free. intros Hp Ha Hb. apply Ha. by rewrite Hp. Qed.

Lemma np_equal_Num (x : float64) (q : Qc) : np_equal x (Num q) = bool_decide (x = Num q).
Proof.
  destruct x as [a|]; simpl.
  - apply bool_decide_ext. split; [by intros -> | by intros [=]].
  - done.
Qed.

Lemma np_equal_true (x y : float64) : np_equal x y = true → x = y.
Proof.
  destruct x, y; simpl; try done. intros ?%bool_decide_eq_true. by f_equal.
Qed.

Lemma np_equal_false (x y : float64) : np_equal x y = false → x ≠ NaN → x ≠ y.
Proof.
  destruct x as [a|], y as [b|]; simpl; try done.
  intros ?%bool_decide_eq_false ? [=]. done.
Qed.

#[global] Instance float_le_total : Total float_le.
Proof.
  intros [a|] [b|]; simpl; auto. destruct (Qc_le_total a b); auto.
Qed.

#[global] Instance float_le_trans : Transitive float_le.
Proof.
  intros [a|] [b|] [c|]; simpl; try done. apply Qcle_trans.
Qed.

#[global] Instance float_lt_trans : Transitive float_lt.
Proof.
  intros [a|] [b|] [c|]; simpl; try done. apply Qclt_trans.
Qed.

#[global] Instance float_lt_irrefl : Irreflexive float_lt.
Proof.
  intros [a|] H; simpl in H; [|done]. by apply Qclt_not_eq in H.
Qed.

Lemma float_le_lt (x y : float64) : float_le x y → x ≠ y → y ≠ NaN → float_lt x y.
Proof.
  destruct x as [a|], y as [b|]; simpl; try done.
  intros Hle Hne _. destruct (Qcle_lt_or_eq _ _ Hle); [done|]. congruence.
Qed.

(** ** [np.sort] and [np.unique] *)

Lemma np_sort_Permutation (a : list float64) : np_sort a ≡ₚ a.
Proof. apply merge_sort_Permutation. Qed.

Lemma np_sort_Sorted (a : list float64) : Sorted float_le (np_sort a).
Proof. apply (Sorted_merge_sort float_le). Qed.

Lemma keep_changes_elem_of (x y : float64) (ar : list float64) :
  y ∈ x :: keep_changes x ar ↔ y ∈ x :: ar.
Proof.
  revert x. induction ar as [|z ar IH]; intros x; simpl; [done|].
  destruct (np_equal z x) eqn:E.
  - apply np_equal_true in E as ->. rewrite IH, !elem_of_cons. tauto.
  - rewrite !(elem_of_cons _ y x), IH. done.
Qed.

Lemma keep_changes_Sorted (x : float64) (ar : list float64) :
  Sorted float_le (x :: ar) → nan_free (x :: ar) →
  Sorted float_lt (x :: keep_changes x ar).
Proof.
  revert x. induction ar as [|z ar IH]; intros x Hs Hn; simpl.
  - by repeat constructor.
  - apply Sorted_inv in Hs as [Hs Hhd]. apply HdRel_inv in Hhd.
    apply nan_free_cons in Hn as [Hx Hn]. pose proof Hn as [Hz _]%nan_free_cons.
    destruct (np_equal z x) eqn:E.
    + apply np_equal_true in E as ->. by apply IH.
    + constructor; [by apply IH|]. constructor.
      apply float_le_lt; [done| |done]. intros ->.
      by apply np_equal_false in E.
Qed.

Lemma np_unique_elem_of (c : float64) (ar : list float64) : c ∈ np_unique ar ↔ c ∈ ar.
Proof.
  unfold np_unique. rewrite <-(np_sort_Permutation ar) at 2.
  destruct (np_sort ar); [done|]. apply keep_changes_elem_of.
Qed.

Lemma np_unique_StronglySorted (ar : list float64) :
  nan_free ar → StronglySorted float_lt (np_unique ar).
Proof.
  intros Hn. apply Sorted_StronglySorted; [apply _|].
  unfold np_unique. pose proof (np_sort_Sorted ar) as Hs.
  apply (nan_free_Permutation _ (np_sort ar)) in Hn; [|by rewrite np_sort_Permutation].
  destruct (np_sort ar); [constructor|]. by apply keep_changes_Sorted.
Qed.

Lemma StronglySorted_lt_NoDup (l : list float64) : StronglySorted float_lt l → NoDup l.
Proof.
  induction 1 as [|x l _ IH Hall]; constructor; [|done].
  intros Hin. rewrite Forall_forall in Hall. by apply (irreflexivity float_lt x), Hall.
Qed.

Lemma np_unique_NoDup (ar : list float64) : nan_free ar → NoDup (np_unique ar).
Proof. intros. by apply StronglySorted_lt_NoDup, np_unique_StronglySorted. Qed.

Lemma np_unique_distinct_values (ar : list float64) :
  nan_free ar → np_unique ar ≡ₚ distinct_values ar.
Proof.
  intros Hn. apply NoDup_Permutation.
  - by apply np_unique_NoDup.
  - apply NoDup_remove_dups.
  - intros c. unfold distinct_values. by rewrite np_unique_elem_of, elem_of_remove_dups.
Qed.

Lemma np_unique_nan_free (ar : list float64) : nan_free ar → nan_free (np_unique ar).
Proof. unfold nan_free. by rewrite np_unique_elem_of. Qed.

(** ** Selecting a category *)

Lemma compress_restrict (target feature : list float64) (q : Qc) :
  compress target (equal_scalar feature (Num q)) = restrict target feature (Num q).
Proof.
  unfold restrict, equal_scalar. revert feature.
  induction target as [|x target IH]; intros [|y feature]; simpl; try done.
  rewrite np_equal_Num, filter_cons. simpl. rewrite IH.
  by case_bool_decide; case_decide.
Qed.

Lemma bool_index_restrict (target feature : list float64) (q : Qc) :
  length target = length feature →
  bool_index target (equal_scalar feature (Num q)) = Ok (restrict target feature (Num q)).
Proof.
  intros Hlen. unfold bool_index.
  rewrite decide_True by (unfold equal_scalar; by rewrite length_map).
  by rewrite compress_restrict.
Qed.

Lemma restrict_nonempty (target feature : list float64) (c : float64) :
  length target = length feature → c ∈ feature → restrict target feature c ≠ [].
Proof.
  unfold restrict. revert feature.
  induction target as [|x target IH]; intros [|y feature] Hlen Hin; simplify_eq/=.
  - by apply elem_of_nil in Hin.
  - rewrite filter_cons. destruct (decide _) as [|Hne]; simpl in *; [done|].
    apply elem_of_cons in Hin as [->|Hin]; [done|]. by apply IH.
Qed.

(** ** Sampling and reshaping *)

Lemma randints_length (high size : nat) (g : RandomState) :
  length (randints high size g).1 = size.
Proof.
  revert g. induction size as [|size IH]; intros g; simpl; [done|].
  specialize (IH (λ k, g (S k))). destruct (randints high size _). simpl in *. by f_equal.
Qed.

Lemma randints_lt (high size : nat) (g : RandomState) :
  0 < high → Forall (λ i, i < high) (randints high size g).1.
Proof.
  intros Hh. revert g. induction size as [|size IH]; intros g; simpl; [constructor|].
  specialize (IH (λ k, g (S k))). destruct (randints high size _). simpl in *.
  constructor; [|done]. apply Nat.mod_upper_bound. lia.
Qed.

Lemma draw_with_replacement_length (subset : list float64) (count : nat) (g : RandomState) :
  length (draw_with_replacement subset count g).1 = count.
Proof.
  unfold draw_with_replacement. pose proof (randints_length (length subset) count g).
  destruct (randints _ _ _). simpl in *. by rewrite length_map.
Qed.

(** Every draw is an element of the subset drawn from. *)
Lemma draw_with_replacement_elem_of (subset : list float64) (count : nat) (g : RandomState) :
  subset ≠ [] → Forall (λ x, x ∈ subset) (draw_with_replacement subset count g).1.
Proof.
  intros Hne. unfold draw_with_replacement.
  assert (0 < length subset) as Hpos by (destruct subset; simpl; [done|lia]).
  pose proof (randints_lt (length subset) count g Hpos) as Hlt.
  destruct (randints _ _ _) as [idx g']. simpl in *.
  induction Hlt as [|i idx Hi _ IH]; simpl; constructor; [|done].
  apply list_elem_of_lookup_total_2. done.
Qed.

Lemma np_random_choice_draw (subset : list float64) (size : Z) (g : RandomState) :
  subset ≠ [] → (0 ≤ size)%Z →
  np_random_choice subset size g = Ok (draw_with_replacement subset (Z.to_nat size) g).
Proof.
  intros Hne Hsize. unfold np_random_choice, draw_with_replacement.
  rewrite decide_False by lia.
  rewrite decide_False by (intros [Hl _]; by destruct subset).
  by destruct (randints _ _ _).
Qed.

Lemma reshape_split_rows (a : list float64) (rows cols : nat) :
  rows ≠ 0 → length a = cols * rows → reshape a rows = Ok (split_rows rows cols a).
Proof.
  intros Hr Hlen. unfold reshape. rewrite decide_False by done. rewrite Hlen.
  rewrite decide_True by (apply Nat.Div0.mod_mul).
  by rewrite Nat.div_mul.
Qed.

Lemma column_split_rows (a : list float64) (rows cols j : nat) :
  j < cols → column (split_rows rows cols a) j = resample a cols rows j.
Proof.
  intros Hj. unfold column, resample. revert a.
  induction rows as [|rows IH]; intros a; [done|].
  simpl split_rows. rewrite <-cons_seq, <-fmap_S_seq. simpl.
  rewrite lookup_total_take_lt by done. f_equal.
  rewrite IH, <-list_fmap_compose. apply list_fmap_ext. intros _ r _. simpl.
  rewrite lookup_total_drop. f_equal. lia.
Qed.

Lemma np_mean_axis0_split_rows (a : list float64) (rows cols : nat) :
  rows ≠ 0 → length a = cols * rows →
  np_mean_axis0 (split_rows rows cols a) = map np_mean (resamples a cols rows).
Proof.
  intros Hr Hlen. destruct rows as [|rows]; [done|].
  unfold np_mean_axis0, resamples. simpl split_rows. cbv beta iota.
  rewrite length_take_le by (rewrite Hlen; nia).
  rewrite map_map. apply map_ext_in. intros j [_ Hj]%in_seq.
  change (take cols a :: split_rows rows cols (drop cols a))
    with (split_rows (S rows) cols a).
  by rewrite column_split_rows.
Qed.

(** The resamples hold every draw exactly once. *)
Lemma resamples_length (draws : list float64) (n_boots size : nat) :
  length (resamples draws n_boots size) = n_boots ∧
  Forall (λ r, length r = size) (resamples draws n_boots size).
Proof.
  unfold resamples, resample. split.
  - by rewrite length_map, length_seq.
  - apply Forall_forall. intros r (j & -> & _)%list_elem_of_fmap.
    by rewrite length_map, length_seq.
Qed.

Lemma concat_zip_with_cons (xs : list float64) (ls : list (list float64)) :
  length xs = length ls → concat (zip_with cons xs ls) ≡ₚ xs ++ concat ls.
Proof.
  revert ls. induction xs as [|x xs IH]; intros [|l ls] Hlen; simplify_eq/=; [done|].
  rewrite IH by done. f_equiv. rewrite !(assoc app). f_equiv. apply Permutation_app_comm.
Qed.

Lemma take_seq_lookup (draws : list float64) (n : nat) :
  n ≤ length draws → take n draws = map (λ j, draws !!! j) (seq 0 n).
Proof.
  revert draws. induction n as [|n IH]; intros [|x draws] Hn; simpl in *; try done; [lia|].
  f_equal. rewrite <-fmap_S_seq, map_map. simpl. rewrite IH by lia. done.
Qed.

Lemma resamples_S (draws : list float64) (n_boots size : nat) :
  n_boots ≤ length draws →
  resamples draws n_boots (S size) =
  zip_with cons (take n_boots draws) (resamples (drop n_boots draws) n_boots size).
Proof.
  intros Hn. rewrite take_seq_lookup by done. unfold resamples, resample.
  generalize (seq 0 n_boots) as js. induction js as [|j js IH]; [done|].
  simpl map at 1. simpl. rewrite <-IH. f_equal. f_equal.
  rewrite <-fmap_S_seq, map_map. apply map_ext. intros r.
  rewrite lookup_total_drop. f_equal. lia.
Qed.

Lemma resamples_Permutation (draws : list float64) (n_boots size : nat) :
  length draws = n_boots * size → concat (resamples draws n_boots size) ≡ₚ draws.
Proof.
  revert draws. induction size as [|size IH]; intros draws Hlen.
  - assert (draws = []) as -> by (apply nil_length_inv; lia).
    unfold resamples, resample. simpl. induction (seq 0 n_boots); [done|]. done.
  - rewrite resamples_S by lia. rewrite concat_zip_with_cons.
    + rewrite IH by (rewrite length_drop; lia). by rewrite take_drop.
    + rewrite length_take_le by lia. by rewrite (proj1 (resamples_length _ _ _)).
Qed.

(** ** The bootstrap loop *)

Lemma set_column_2 (r0 r1 : list float64) (i : nat) (lo hi : float64) :
  i < length r0 → i < length r1 →
  set_column [r0; r1] i [lo; hi] = Ok [<[i:=lo]> r0; <[i:=hi]> r1].
Proof.
  intros H0 H1. unfold set_column. rewrite decide_True; [done|]. by repeat constructor.
Qed.

(** One turn of the loop computes the interval of its category. *)
Lemma bootstrap_body_interval (target feature r0 r1 : list float64) (n : Z) (i : nat)
    (g : RandomState) (q : Qc) :
  length target = length feature → Num q ∈ feature → (0 < n)%Z →
  i < length r0 → i < length r1 →
  bootstrap_body target feature n ([r0; r1], i, g) (Num q) =
  let '((lo, hi), g') :=
    category_interval (restrict target feature (Num q)) (Z.to_nat n) g in
  Ok ([<[i:=lo]> r0; <[i:=hi]> r1], i + 1, g').
Proof.
  intros Hlen Hin Hn H0 H1. unfold bootstrap_body, category_interval.
  rewrite bool_index_restrict by done. simpl.
  pose proof (restrict_nonempty target feature (Num q) Hlen Hin) as Hne.
  set (subset := restrict target feature (Num q)) in *.
  rewrite np_random_choice_draw by (done || lia). simpl.
  replace (Z.to_nat (n * Z.of_nat (length subset))) with (Z.to_nat n * length subset) by lia.
  pose proof (draw_with_replacement_length subset (Z.to_nat n * length subset) g) as Hd.
  destruct (draw_with_replacement _ _ _) as [sample g']. simpl in *.
  assert (length subset ≠ 0) by by destruct subset.
  rewrite (reshape_split_rows _ _ (Z.to_nat n)) by done. simpl.
  rewrite np_mean_axis0_split_rows by done.
  by rewrite set_column_2.
Qed.

Lemma for_each_bootstrap (target feature : list float64) (n : Z)
    (categories r0 r1 : list float64) (i : nat) (g : RandomState) :
  length target = length feature → (0 < n)%Z →
  nan_free categories → categories ⊆ feature →
  i + length categories ≤ length r0 → i + length categories ≤ length r1 →
  for_each (bootstrap_body target feature n) categories ([r0; r1], i, g) =
  let '(ivs, g') := intervals target feature (Z.to_nat n) categories g in
  Ok ([list_inserts i ivs.*1 r0; list_inserts i ivs.*2 r1], i + length categories, g').
Proof.
  intros Hlen Hn. revert r0 r1 i g.
  induction categories as [|c cs IH]; intros r0 r1 i g Hnan Hsub H0 H1.
  - simpl. by rewrite Nat.add_0_r.
  - apply nan_free_cons in Hnan as [Hc Hnan]. destruct c as [q|]; [|done].
    cbn [for_each intervals length] in *.
    rewrite bootstrap_body_interval; [|done|apply Hsub; left|done|lia|lia].
    destruct (category_interval _ _ _) as [[lo hi] g1]. simpl.
    rewrite IH; [|done|set_solver|rewrite length_insert; lia|rewrite length_insert; lia].
    destruct (intervals _ _ _ _ _) as [ivs g2]. simpl.
    rewrite !list_insert_inserts_lt by lia.
    by replace (i + 1 + length cs) with (i + S (length cs)) by lia; replace (i + 1) with (S i) by lia.
Qed.

Lemma intervals_length (target feature : list float64) (n_boots : nat)
    (categories : list float64) (g : RandomState) :
  length (intervals target feature n_boots categories g).1 = length categories.
Proof.
  revert g. induction categories as [|c cs IH]; intros g; simpl; [done|].
  destruct (category_interval _ _ _) as [iv g1]. specialize (IH g1).
  destruct (intervals _ _ _ _ _). simpl in *. by f_equal.
Qed.

(** ** The call as a whole *)

Lemma mapM_aggregate (agg : list float64 → float64) (target feature categories : list float64) :
  length target = length feature → nan_free categories →
  mapM (λ category, agg <$> bool_index target (equal_scalar feature category)) categories =
  Ok (map (λ c, agg (restrict target feature c)) categories).
Proof.
  intros Hlen. induction categories as [|c cs IH]; intros Hn; [done|].
  apply nan_free_cons in Hn as [Hc Hn]. destruct c as [q|]; [|done].
  simpl. rewrite bool_index_restrict by done. simpl. by rewrite IH.
Qed.

(** The NaN check lets a NaN-free pair of float arrays through. *)
Lemma plot_after_checks (target feature : list float64) (title method : string)
    (n_boots : option Z) (g : RandomState) :
  nan_free target → nan_free feature →
  plot_target_feature_distribution target (FloatArr feature) title method n_boots g =
  selected_agg_func ← getitem agg_func_mapping method;
  let feature_categories := np_unique feature in
  if decide (15 < length feature_categories) then Raise (VizError limit_msg) else
  data ← mapM (λ category,
                 selected_agg_func <$> bool_index target (equal_scalar feature category))
              feature_categories;
  '(xerr, g') ← match truthy n_boots with
                 | Some n =>
                     let percentile := np_zeros 2 (length feature_categories) in
                     '(percentile, _, g') ←
                        for_each (bootstrap_body target feature n) feature_categories
                                 (percentile, 0, g);
                     Ok (Some percentile, g')
                 | None => Ok (None, g)
                 end;
  Ok (Chart feature_categories data title ("Target compared to " +:+ method) xerr
            (selected_agg_func feature), g').
Proof.
  intros Ht Hf. unfold plot_target_feature_distribution. simpl.
  apply nan_free_any in Ht, Hf. by rewrite Ht, Hf.
Qed.

(** On a well-formed numeric input the call returns, and this is what it
    returns. *)
Lemma plot_returns (target feature : list float64) (title method : string)
    (agg : list float64 → float64) (n_boots : option Z) (g : RandomState) :
  nan_free target → nan_free feature → length target = length feature →
  length (np_unique feature) ≤ 15 → agg_func_mapping !! method = Some agg →
  (∀ n, n_boots = Some n → (0 ≤ n)%Z) →
  plot_target_feature_distribution target (FloatArr feature) title method n_boots g =
  let categories := np_unique feature in
  let '(xerr, g') := error_bars target feature n_boots categories g in
  Ok (Chart categories (map (λ c, agg (restrict target feature c)) categories)
            title ("Target compared to " +:+ method) xerr (agg feature), g').
Proof.
  intros Ht Hf Hlen H15 Hagg Hn. rewrite plot_after_checks by done.
  unfold getitem. rewrite Hagg. simpl. rewrite decide_False by lia.
  rewrite mapM_aggregate by (done || by apply np_unique_nan_free). simpl.
  unfold error_bars. destruct (truthy n_boots) as [n|] eqn:Htr; [|done].
  assert (0 < n)%Z as Hpos.
  { destruct n_boots as [n'|]; simpl in Htr; [|done].
    destruct (decide (n' = 0%Z)); simplify_eq. specialize (Hn n eq_refl). lia. }
  unfold np_zeros. simpl replicate.
  rewrite for_each_bootstrap;
    [|done|done|by apply np_unique_nan_free
     |intros c; by rewrite np_unique_elem_of
     |by rewrite length_replicate|by rewrite length_replicate].
  pose proof (intervals_length target feature (Z.to_nat n) (np_unique feature) g) as Hl.
  destruct (intervals _ _ _ _ _) as [ivs g']. simpl in *.
  rewrite <-(app_nil_r ivs.*1), <-(app_nil_r ivs.*2).
  rewrite !list_inserts_0_l by (by rewrite length_fmap, length_replicate).
  by rewrite !app_nil_r.
Qed.

Lemma agg_func_mapping_mean : agg_func_mapping !! "mean" = Some np_mean.
Proof. unfold agg_func_mapping. by rewrite lookup_insert_eq. Qed.

Lemma agg_func_mapping_median : agg_func_mapping !! "median" = Some np_median.
Proof.
  unfold agg_func_mapping. rewrite lookup_insert_ne by done. by rewrite lookup_singleton_eq.
Qed.

Lemma agg_func_mapping_other (method : string) :
  method ≠ "mean" → method ≠ "median" → agg_func_mapping !! method = None.
Proof.
  intros H1 H2. unfold agg_func_mapping.
  rewrite lookup_insert_ne by done. by rewrite lookup_singleton_ne.
Qed.

Lemma agg_func_mapping_Some (method : string) (agg : list float64 → float64) :
  agg_func_mapping !! method = Some agg →
  (method = "mean" ∧ agg = np_mean) ∨ (method = "median" ∧ agg = np_median).
Proof.
  intros H. destruct (decide (method = "mean")) as [->|H1].
  { rewrite agg_func_mapping_mean in H. left. by simplify_eq. }
  destruct (decide (method = "median")) as [->|H2].
  { rewrite agg_func_mapping_median in H. right. by simplify_eq. }
  by rewrite agg_func_mapping_other in H.
Qed.

(** What a returning call tells about its arguments. *)
Lemma plot_Ok_inv (target : list float64) (feature : ndarray) (title method : string)
    (n_boots : option Z) (g : RandomState) (ch : chart) (g' : RandomState) :
  plot_target_feature_distribution target feature title method n_boots g = Ok (ch, g') →
  ∃ f agg,
    feature = FloatArr f ∧ nan_free target ∧ nan_free f ∧
    agg_func_mapping !! method = Some agg ∧
    length (np_unique f) ≤ 15 ∧
    chart_categories ch = np_unique f ∧
    mapM (λ category, agg <$> bool_index target (equal_scalar f category)) (np_unique f)
      = Ok (chart_data ch).
Proof.
  intros H. destruct (decide (NaN ∈ target)) as [Hin|Ht].
  { apply any_isnan_true in Hin. unfold plot_target_feature_distribution in H.
    simpl in H. by rewrite Hin in H. }
  destruct feature as [f|l].
  2:{ apply nan_free_any in Ht. unfold plot_target_feature_distribution in H.
      simpl in H. by rewrite Ht in H. }
  destruct (decide (NaN ∈ f)) as [Hin|Hf].
  { apply any_isnan_true in Hin. apply nan_free_any in Ht.
    unfold plot_target_feature_distribution in H. simpl in H. by rewrite Ht, Hin in H. }
  rewrite plot_after_checks in H by done. unfold getitem in H.
  destruct (agg_func_mapping !! method) as [agg|] eqn:Hagg; [|done]. simpl in H.
  destruct (decide (15 < length (np_unique f))); [done|].
  destruct (mapM _ _) as [data|] eqn:Hdata; [|done]. simpl in H.
  exists f, agg. repeat split; try done; try lia.
  - destruct (match truthy n_boots with Some _ => _ | None => _ end) as [[xerr g1]|];
      simpl in H; by simplify_eq.
  - destruct (match truthy n_boots with Some _ => _ | None => _ end) as [[xerr g1]|];
      simpl in H; by simplify_eq.
Qed.

(** X13. With the categories given as numbers: for aligned NaN-free numeric
    arrays with at most 15 distinct categories (a recognized [method],
    [n_boots] absent or not negative), the computation returns exactly one
    aggregate per category; the categories are the distinct values of the
    feature, each once, in ascending order. *)
Theorem one_result_per_category (target feature : list float64) (title method : string)
    (n_boots : option Z) (g : RandomState) :
  nan_free target → nan_free feature → length target = length feature →
  length (distinct_values feature) ≤ 15 →
  method = "mean" ∨ method = "median" → n_boots_ok n_boots →
  ∃ ch g',
    plot_target_feature_distribution target (FloatArr feature) title method n_boots g
      = Ok (ch, g') ∧
    length (chart_data ch) = length (chart_categories ch) ∧
    length (chart_categories ch) = length (distinct_values feature) ∧
    NoDup (chart_categories ch) ∧
    (∀ c, c ∈ chart_categories ch ↔ c ∈ feature) ∧
    StronglySorted float_lt (chart_categories ch).
Proof.
  intros Ht Hf Hlen H15 Hm Hn.
  assert (∃ agg, agg_func_mapping !! method = Some agg) as [agg Hagg].
  { destruct Hm as [->| ->]; eauto using agg_func_mapping_mean, agg_func_mapping_median. }
  pose proof (np_unique_distinct_values feature Hf) as Hp.
  rewrite (plot_returns _ _ _ _ agg) by (done || by rewrite Hp). cbv zeta.
  destruct (error_bars _ _ _ _ _) as [xerr g']. eexists _, _. split; [done|]. simpl.
  split; [by rewrite length_map|]. split; [by rewrite Hp|].
  split; [by apply np_unique_NoDup|]. split; [intros c; apply np_unique_elem_of|].
  by apply np_unique_StronglySorted.
Qed.

Lemma one_result_per_category_witness :
  ∃ ch g',
    plot_target_feature_distribution example_target (FloatArr example_codes) default_title
      "mean" None g0 = Ok (ch, g') ∧
    length (chart_data ch) = length (chart_categories ch) ∧
    length (chart_categories ch) = length (distinct_values example_codes) ∧
    NoDup (chart_categories ch) ∧
    (∀ c, c ∈ chart_categories ch ↔ c ∈ example_codes) ∧
    StronglySorted float_lt (chart_categories ch).
Proof.
  apply (one_result_per_category example_target example_codes default_title "mean" None g0).
  - apply nan_free_any. reflexivity.
  - apply nan_free_any. reflexivity.
  - reflexivity.
  - apply (bool_decide_unpack _). vm_compute. exact I.
  - left. reflexivity.
  - intros n [=].
Defined.

(** X14. With the categories given as numbers, on the same inputs: every
    distinct value of the feature is a category of the result, and the
    aggregate of a category is [np.mean] (under "mean") or [np.median]
    (under "median") of exactly the target values whose aligned feature
    entry is that category, in the order of the rows. *)
Theorem aggregates_of_the_subsets (target feature : list float64) (title method : string)
    (n_boots : option Z) (g : RandomState) :
  nan_free target → nan_free feature → length target = length feature →
  length (distinct_values feature) ≤ 15 →
  method = "mean" ∨ method = "median" → n_boots_ok n_boots →
  ∃ ch g',
    plot_target_feature_distribution target (FloatArr feature) title method n_boots g
      = Ok (ch, g') ∧
    (∀ c, c ∈ feature → c ∈ chart_categories ch) ∧
    Forall2 (λ c a,
               (method = "mean" → a = np_mean (restrict target feature c)) ∧
               (method = "median" → a = np_median (restrict target feature c)))
            (chart_categories ch) (chart_data ch).
Proof.
  intros Ht Hf Hlen H15 Hm Hn.
  assert (∃ agg, agg_func_mapping !! method = Some agg ∧
                 (method = "mean" → agg = np_mean) ∧
                 (method = "median" → agg = np_median)) as (agg & Hagg & Hmean & Hmedian).
  { destruct Hm as [->| ->].
    - exists np_mean. by rewrite agg_func_mapping_mean.
    - exists np_median. by rewrite agg_func_mapping_median. }
  rewrite <-(np_unique_distinct_values feature Hf) in H15.
  rewrite (plot_returns _ _ _ _ agg) by done. cbv zeta.
  destruct (error_bars _ _ _ _ _) as [xerr g']. eexists _, _. split; [done|]. simpl.
  split; [intros c; apply np_unique_elem_of|].
  apply Forall2_fmap_r, Forall_Forall2_diag, Forall_forall. intros c _.
  split; intros Hc; [by rewrite Hmean | by rewrite Hmedian].
Qed.

Lemma aggregates_of_the_subsets_witness :
  ∃ ch g',
    plot_target_feature_distribution example_target (FloatArr example_codes) default_title
      "median" (Some 3%Z) g0 = Ok (ch, g') ∧
    (∀ c, c ∈ example_codes → c ∈ chart_categories ch) ∧
    Forall2 (λ c a,
               ("median" = "mean" → a = np_mean (restrict example_target example_codes c)) ∧
               ("median" = "median" →
                a = np_median (restrict example_target example_codes c)))
            (chart_categories ch) (chart_data ch).
Proof.
  apply (aggregates_of_the_subsets example_target example_codes default_title "median"
           (Some 3%Z) g0).
  - apply nan_free_any. reflexivity.
  - apply nan_free_any. reflexivity.
  - reflexivity.
  - apply (bool_decide_unpack _). vm_compute. exact I.
  - right. reflexivity.
  - intros n [= <-]. lia.
Defined.

(** ** The checks *)

Lemma nan_check_raises (target : list float64) (feature : ndarray)
    (title method : string) (n_boots : option Z) (g : RandomState) :
  NaN ∈ target ∨ contains_nan feature →
  plot_target_feature_distribution target feature title method n_boots g
  = Raise (VizError nan_msg).
Proof.
  intros H. unfold plot_target_feature_distribution. simpl.
  destruct (any (map isnan target)) eqn:Ht; [done|].
  destruct H as [H|H]; [apply any_isnan_true in H; congruence|].
  destruct feature as [f|l]; [|done]. simpl in *.
  apply any_isnan_true in H. by rewrite H.
Qed.

(** C3. When the target or the feature holds a NaN, the call raises the
    NaN [VizError] and returns nothing, whatever the other array, the
    method (recognized or not), the number of categories, [n_boots] and the
    generator: the check comes before the method lookup, the enumeration of
    the categories and the aggregation. *)
Theorem nan_is_rejected_first (target : list float64) (feature : ndarray)
    (title method : string) (n_boots : option Z) (g : RandomState) :
  NaN ∈ target ∨ contains_nan feature →
  plot_target_feature_distribution target feature title method n_boots g
  = Raise (VizError nan_msg).
Proof. apply nan_check_raises. Qed.

Lemma nan_is_rejected_first_witness :
  plot_target_feature_distribution [of_Z 1; NaN] (StrArr sixteen_labels) default_title
    "mode" (Some (-1)%Z) g0
  = Raise (VizError nan_msg).
Proof.
  apply (nan_is_rejected_first [of_Z 1; NaN] (StrArr sixteen_labels) default_title "mode"
           (Some (-1)%Z) g0).
  left. apply any_isnan_true. reflexivity.
Defined.

Lemma bool_index_not_VizError (a : list float64) (mask : list bool) (e : exception) :
  bool_index a mask = Raise e → ¬ is_VizError e.
Proof. unfold bool_index. destruct (decide _); [done|]. intros [= <-]. simpl. tauto. Qed.

Lemma mapM_bool_index_not_VizError (agg : list float64 → float64)
    (target feature categories : list float64) (e : exception) :
  mapM (λ category, agg <$> bool_index target (equal_scalar feature category)) categories
    = Raise e →
  ¬ is_VizError e.
Proof.
  induction categories as [|c cs IH]; intros H; simpl in H; [done|].
  destruct (bool_index target (equal_scalar feature c)) as [sub|e'] eqn:Hb; simpl in H.
  - destruct (mapM _ cs); simpl in H; [done|]. injection H as ->. by apply IH.
  - injection H as ->. by eapply bool_index_not_VizError.
Qed.

Lemma bootstrap_body_not_VizError (target feature : list float64) (n : Z)
    (st : list (list float64) * nat * RandomState) (c : float64) (e : exception) :
  bootstrap_body target feature n st c = Raise e → ¬ is_VizError e.
Proof.
  destruct st as [[percentile i] g]. unfold bootstrap_body.
  unfold bool_index. destruct (decide _); simpl; [|intros [= <-]; simpl; tauto].
  unfold np_random_choice.
  destruct (decide (_ < _)%Z); simpl; [intros [= <-]; simpl; tauto|].
  destruct (decide (_ ∧ _)); simpl; [intros [= <-]; simpl; tauto|].
  destruct (randints _ _ _) as [idx g1]. simpl.
  unfold reshape. destruct (decide (_ = 0)); simpl; [intros [= <-]; simpl; tauto|].
  destruct (decide (_ = 0)); simpl; [|intros [= <-]; simpl; tauto].
  unfold set_column. destruct (decide _); simpl; [done|intros [= <-]; simpl; tauto].
Qed.

Lemma for_each_bootstrap_not_VizError (target feature : list float64) (n : Z)
    (categories : list float64) (st : list (list float64) * nat * RandomState)
    (e : exception) :
  for_each (bootstrap_body target feature n) categories st = Raise e → ¬ is_VizError e.
Proof.
  revert st. induction categories as [|c cs IH]; intros st H; [done|].
  cbn [for_each] in H.
  destruct (bootstrap_body target feature n st c) as [st'|e'] eqn:Hb; simpl in H.
  - by apply (IH st').
  - injection H as ->. by eapply bootstrap_body_not_VizError.
Qed.

(** C4, as stated, fails when the method is not recognized: with sixteen
    categories and no NaN the call raises the [KeyError] of the method
    lookup, which comes before the categories are enumerated. *)
Lemma limit_error_preempted :
  nan_free sixteen_codes ∧ n_categories (FloatArr sixteen_codes) = 16 ∧
  plot_target_feature_distribution sixteen_codes (FloatArr sixteen_codes) default_title
    "mode" None g0
  = Raise (KeyError "mode").
Proof.
  split; [apply nan_free_any; reflexivity|]. split; [by vm_compute|]. reflexivity.
Qed.

(** C4, amended. For NaN-free numeric arrays and a recognized method: with
    more than 15 distinct categories the call raises the limit [VizError],
    also when the arrays are misaligned or [n_boots] is negative, which
    would make the aggregation or the bootstrap raise, so the check comes
    after the enumeration and before both; with 15 or fewer the call never
    raises that error. *)
Theorem category_limit (target feature : list float64) (title method : string)
    (n_boots : option Z) (g : RandomState) :
  nan_free target → nan_free feature → method = "mean" ∨ method = "median" →
  (15 < length (distinct_values feature) →
   plot_target_feature_distribution target (FloatArr feature) title method n_boots g
   = Raise (VizError limit_msg)) ∧
  (length (distinct_values feature) ≤ 15 →
   ∀ e, plot_target_feature_distribution target (FloatArr feature) title method n_boots g
        = Raise e → ¬ is_VizError e).
Proof.
  intros Ht Hf Hm.
  assert (∃ agg, agg_func_mapping !! method = Some agg) as [agg Hagg].
  { destruct Hm as [->| ->]; eauto using agg_func_mapping_mean, agg_func_mapping_median. }
  rewrite <-(np_unique_distinct_values feature Hf).
  rewrite plot_after_checks by done. unfold getitem. rewrite Hagg. simpl.
  split; intros H15.
  - by rewrite decide_True.
  - rewrite decide_False by lia. intros e.
    destruct (mapM _ _) as [data|e'] eqn:Hdata; simpl.
    2:{ intros [= <-]. by eapply mapM_bool_index_not_VizError. }
    destruct (truthy n_boots) as [n|]; simpl; [|done].
    destruct (for_each _ _ _) as [[[p i] g1]|e'] eqn:Hloop; simpl; [done|].
    intros [= <-]. by eapply for_each_bootstrap_not_VizError.
Qed.

Lemma category_limit_witness :
  plot_target_feature_distribution [of_Z 1] (FloatArr sixteen_codes) default_title "median"
    (Some (-1)%Z) g0
  = Raise (VizError limit_msg).
Proof.
  apply (category_limit [of_Z 1] sixteen_codes default_title "median" (Some (-1)%Z) g0).
  - apply nan_free_any. reflexivity.
  - apply nan_free_any. reflexivity.
  - right. reflexivity.
  - apply (bool_decide_unpack _). vm_compute. exact I.
Defined.

(** Fifteen categories are let through. *)
Lemma fifteen_categories_accepted :
  chart_categories <$>
    outcome (plot_target_feature_distribution fifteen_codes (FloatArr fifteen_codes)
               default_title "mean" None g0)
  = Ok fifteen_codes.
Proof. apply (bool_decide_unpack _). vm_compute. exact I. Qed.

(** C8. A [method] other than "mean" and "median" makes the call raise and
    return nothing, on every input; past the NaN check the exception is the
    [KeyError] of the lookup in [agg_func_mapping]. *)
Theorem unrecognized_method_is_rejected (target : list float64) (feature : ndarray)
    (title method : string) (n_boots : option Z) (g : RandomState) :
  method ≠ "mean" → method ≠ "median" →
  is_Raise (plot_target_feature_distribution target feature title method n_boots g) ∧
  (∀ f, feature = FloatArr f → nan_free target → nan_free f →
        plot_target_feature_distribution target feature title method n_boots g
        = Raise (KeyError method)).
Proof.
  intros H1 H2.
  assert (∀ f, nan_free target → nan_free f →
            plot_target_feature_distribution target (FloatArr f) title method n_boots g
            = Raise (KeyError method)) as Hkey.
  { intros f Ht Hf. rewrite plot_after_checks by done.
    unfold getitem. by rewrite agg_func_mapping_other. }
  split; [|by intros f ->; apply Hkey].
  destruct (decide (NaN ∈ target)) as [Hin|Ht].
  { rewrite nan_check_raises by auto. done. }
  destruct feature as [f|l].
  - destruct (decide (NaN ∈ f)) as [Hin|Hf].
    + rewrite nan_check_raises by (right; done). done.
    + by rewrite Hkey.
  - apply nan_free_any in Ht. unfold plot_target_feature_distribution. simpl.
    by rewrite Ht.
Qed.

Lemma unrecognized_method_is_rejected_witness :
  plot_target_feature_distribution example_target (FloatArr example_codes) default_title
    "mode" None g0
  = Raise (KeyError "mode").
Proof.
  refine (proj2 (unrecognized_method_is_rejected example_target (FloatArr example_codes)
                   default_title "mode" None g0 _ _) example_codes _ _ _).
  - intros [=].
  - intros [=].
  - reflexivity.
  - apply nan_free_any. reflexivity.
  - apply nan_free_any. reflexivity.
Defined.

(** ** The specification's example *)

(** A feature of string labels never gets past the NaN check. *)
Lemma string_feature_raises (target : list float64) (labels : list string)
    (title method : string) (n_boots : option Z) (g : RandomState) :
  nan_free target →
  plot_target_feature_distribution target (StrArr labels) title method n_boots g
  = Raise (TypeError "ufunc 'isnan' not supported for the input types").
Proof.
  intros Ht%nan_free_any. unfold plot_target_feature_distribution. simpl. by rewrite Ht.
Qed.

(** C7. On the example of the specification, with the labels "a" and "b",
    the call does not return the stated categories and aggregates: the NaN
    check raises a [TypeError] on the string array. *)
Theorem example_with_labels_raises :
  plot_target_feature_distribution example_target (StrArr example_labels) default_title
    "mean" None g0
  = Raise (TypeError "ufunc 'isnan' not supported for the input types").
Proof. reflexivity. Qed.

(** C1. On the arrays of that example, which have no missing value and two
    categories, no aggregate is returned for any category, neither the mean
    under "mean" nor the median under "median", with or without a
    bootstrap: the call ends in the [TypeError] of the NaN check. *)
Theorem labels_give_no_aggregate (n_boots : option Z) (g : RandomState) :
  chart_data <$>
    outcome (plot_target_feature_distribution example_target (StrArr example_labels)
               default_title "mean" n_boots g)
  = Raise (TypeError "ufunc 'isnan' not supported for the input types") ∧
  chart_data <$>
    outcome (plot_target_feature_distribution example_target (StrArr example_labels)
               default_title "median" n_boots g)
  = Raise (TypeError "ufunc 'isnan' not supported for the input types").
Proof. split; rewrite string_feature_raises; (done || apply nan_free_any; reflexivity). Qed.

(** C2. A feature of labels gives no category at all, where the claim asks
    for its distinct labels in ascending order with one result each: with
    the target of the example and any array of labels, few or many, the
    call returns nothing, whatever the other arguments. *)
Theorem labels_give_no_category (labels : list string) (title method : string)
    (n_boots : option Z) (g : RandomState) :
  chart_categories <$>
    outcome (plot_target_feature_distribution example_target (StrArr labels) title method
               n_boots g)
  = Raise (TypeError "ufunc 'isnan' not supported for the input types").
Proof. rewrite string_feature_raises; [done|]. apply nan_free_any. reflexivity. Qed.

(** The same example with the two labels coded as the numbers 0 and 1: the
    call returns the categories [0, 1] and the aggregates [1, 5] (no error
    bars, and the mean 1/2 of the feature for the reference line). *)
Theorem example_with_codes :
  outcome (plot_target_feature_distribution example_target (FloatArr example_codes)
             default_title "mean" None g0)
  = Ok {| chart_categories := [of_Z 0; of_Z 1];
          chart_data := [of_Z 1; of_Z 5];
          chart_title := default_title;
          chart_x_label := "Target compared to mean";
          chart_xerr := None;
          chart_axvline := Num (Q2Qc (1 # 2)) |}.
Proof. apply (bool_decide_unpack _). vm_compute. exact I. Qed.

(** ** The bootstrap intervals *)

(** C5. With [n_boots = n > 0] on a well-formed numeric input, the error
    bars the call returns are those of [intervals]: for each category, in
    order, [n × size] draws with replacement from the category's subset of
    [size] target values, split into [n] resamples of [size] draws, the mean
    of each resample (whichever [method] was asked for) and the 2.5th and
    97.5th percentiles of the [n] means; the lower bounds make up the first
    row and the upper bounds the second.  The draws all come from the
    subset, and the resamples hold each draw exactly once. *)
Theorem bootstrap_procedure (target feature : list float64) (title method : string)
    (n : Z) (g : RandomState) :
  nan_free target → nan_free feature → length target = length feature →
  length (distinct_values feature) ≤ 15 →
  method = "mean" ∨ method = "median" → (0 < n)%Z →
  let n_boots := Z.to_nat n in
  let ivs := intervals target feature n_boots (np_unique feature) g in
  (∃ ch,
     plot_target_feature_distribution target (FloatArr feature) title method (Some n) g
       = Ok (ch, ivs.2) ∧
     chart_xerr ch = Some [ivs.1.*1; ivs.1.*2]) ∧
  (∀ subset g1, subset ≠ [] →
     let draws := (draw_with_replacement subset (n_boots * length subset) g1).1 in
     let parts := resamples draws n_boots (length subset) in
     length draws = n_boots * length subset ∧
     Forall (λ x, x ∈ subset) draws ∧
     length parts = n_boots ∧
     Forall (λ r, length r = length subset) parts ∧
     concat parts ≡ₚ draws).
Proof.
  intros Ht Hf Hlen H15 Hm Hn. cbv zeta. split.
  - assert (∃ agg, agg_func_mapping !! method = Some agg) as [agg Hagg].
    { destruct Hm as [->| ->]; eauto using agg_func_mapping_mean, agg_func_mapping_median. }
    rewrite <-(np_unique_distinct_values feature Hf) in H15.
    rewrite (plot_returns _ _ _ _ agg); [|done..|intros ? [= <-]; lia].
    cbv zeta. unfold error_bars. simpl. rewrite decide_False by lia.
    destruct (intervals _ _ _ _ _) as [ivs g']. eexists. split; done.
  - intros subset g1 Hne.
    pose proof (draw_with_replacement_length subset (Z.to_nat n * length subset) g1) as Hl.
    split; [done|]. split; [by apply draw_with_replacement_elem_of|].
    split; [apply resamples_length|]. split; [apply resamples_length|].
    by apply resamples_Permutation.
Qed.

Lemma bootstrap_procedure_witness :
  let n_boots := Z.to_nat 3 in
  let ivs := intervals example_target example_codes n_boots (np_unique example_codes) g0 in
  (∃ ch,
     plot_target_feature_distribution example_target (FloatArr example_codes) default_title
       "median" (Some 3%Z) g0
       = Ok (ch, ivs.2) ∧
     chart_xerr ch = Some [ivs.1.*1; ivs.1.*2]) ∧
  (∀ subset g1, subset ≠ [] →
     let draws := (draw_with_replacement subset (n_boots * length subset) g1).1 in
     let parts := resamples draws n_boots (length subset) in
     length draws = n_boots * length subset ∧
     Forall (λ x, x ∈ subset) draws ∧
     length parts = n_boots ∧
     Forall (λ r, length r = length subset) parts ∧
     concat parts ≡ₚ draws).
Proof.
  apply (bootstrap_procedure example_target example_codes default_title "median" 3%Z g0).
  - apply nan_free_any. reflexivity.
  - apply nan_free_any. reflexivity.
  - reflexivity.
  - apply (bool_decide_unpack _). vm_compute. exact I.
  - right. reflexivity.
  - lia.
Defined.

(** ** Dependence on the generator *)

(** C9, as stated, fails: two calls in a row on the same arguments, with
    one bootstrap iteration, return different interval bounds, the second
    call drawing from the state the first one left. *)
Lemma second_call_differs :
  chart_xerr <$> (call_twice [of_Z 1; of_Z 5] (FloatArr [of_Z 0; of_Z 0]) default_title
                    "mean" (Some 1%Z) g0).1
  = Ok (Some [[of_Z 1]; [of_Z 1]]) ∧
  chart_xerr <$> (call_twice [of_Z 1; of_Z 5] (FloatArr [of_Z 0; of_Z 0]) default_title
                    "mean" (Some 1%Z) g0).2
  = Ok (Some [[of_Z 5]; [of_Z 5]]).
Proof. split; apply (bool_decide_unpack _); vm_compute; exact I. Qed.

(** C9, amended. On a well-formed numeric input the categories and the
    aggregates are fixed by [target], [feature] and [method]: every call
    returns them, whatever [n_boots] and the state of the generator.  When
    no bootstrap is asked for the call leaves the generator as it found it
    and returns no intervals; the intervals of a bootstrap are computed from
    the generator's draws (see [bootstrap_procedure]). *)
Theorem aggregates_ignore_generator (target feature : list float64) (title method : string) :
  nan_free target → nan_free feature → length target = length feature →
  length (distinct_values feature) ≤ 15 →
  method = "mean" ∨ method = "median" →
  ∃ categories data,
    ∀ n_boots g, n_boots_ok n_boots →
      ∃ ch g',
        plot_target_feature_distribution target (FloatArr feature) title method n_boots g
          = Ok (ch, g') ∧
        chart_categories ch = categories ∧ chart_data ch = data ∧
        (truthy n_boots = None → g' = g ∧ chart_xerr ch = None).
Proof.
  intros Ht Hf Hlen H15 Hm.
  assert (∃ agg, agg_func_mapping !! method = Some agg) as [agg Hagg].
  { destruct Hm as [->| ->]; eauto using agg_func_mapping_mean, agg_func_mapping_median. }
  rewrite <-(np_unique_distinct_values feature Hf) in H15.
  exists (np_unique feature),
         (map (λ c, agg (restrict target feature c)) (np_unique feature)).
  intros n_boots g Hn. rewrite (plot_returns _ _ _ _ agg) by done. cbv zeta.
  unfold error_bars. destruct (truthy n_boots) as [n|].
  - destruct (intervals _ _ _ _ _) as [ivs g']. eexists _, _.
    split; [done|]. by repeat split.
  - eexists _, _. split; [done|]. by repeat split.
Qed.

Lemma aggregates_ignore_generator_witness :
  ∃ categories data,
    ∀ n_boots g, n_boots_ok n_boots →
      ∃ ch g',
        plot_target_feature_distribution example_target (FloatArr example_codes)
          default_title "mean" n_boots g
          = Ok (ch, g') ∧
        chart_categories ch = categories ∧ chart_data ch = data ∧
        (truthy n_boots = None → g' = g ∧ chart_xerr ch = None).
Proof.
  apply (aggregates_ignore_generator example_target example_codes default_title "mean").
  - apply nan_free_any. reflexivity.
  - apply nan_free_any. reflexivity.
  - reflexivity.
  - apply (bool_decide_unpack _). vm_compute. exact I.
  - left. reflexivity.
Defined.

(** ** The constructor of [SQLDataSet] *)

(** C10. The constructor goes by the class of [conn]: a [Connectable] is
    stored as the engine as it is and [sa.create_engine] is not called; for
    a string [sa.create_engine] is called once, with the string and the
    keyword arguments, and its result is the engine; for anything else the
    constructor raises [ValueError], no instance is made and
    [sa.create_engine] is not called. *)
Theorem init_by_class {Connectable Kwargs : Type}
    (create_engine : string → Kwargs → result Connectable)
    (conn : SQLDataSet.pyobject) (engine_kwargs : Kwargs) :
  (∀ c, SQLDataSet.isinstance_Connectable conn = Some c →
        SQLDataSet.__init__ create_engine conn engine_kwargs
        = (Ok (SQLDataSet.MkSQLDataSet c), [])) ∧
  (∀ url, SQLDataSet.isinstance_Connectable conn = None →
          SQLDataSet.isinstance_str conn = Some url →
          SQLDataSet.__init__ create_engine conn engine_kwargs
          = (SQLDataSet.MkSQLDataSet <$> create_engine url engine_kwargs,
             [(url, engine_kwargs)])) ∧
  (SQLDataSet.isinstance_Connectable conn = None →
   SQLDataSet.isinstance_str conn = None →
   SQLDataSet.__init__ create_engine conn engine_kwargs
   = (Raise (ValueError "Invalid connection"), [])).
Proof.
  unfold SQLDataSet.__init__. repeat split.
  - by intros c ->.
  - intros url -> ->. by destruct (create_engine url engine_kwargs).
  - by intros -> ->.
Qed.

Lemma init_by_class_witness :
  SQLDataSet.__init__ (λ (url : string) (_ : unit), Ok (String.length url))
    (SQLDataSet.PyConnectable 7) ()
  = (Ok (SQLDataSet.MkSQLDataSet 7), []) ∧
  SQLDataSet.__init__ (λ (url : string) (_ : unit), Ok (String.length url))
    (SQLDataSet.PyStr "sqlite://") ()
  = (Ok (SQLDataSet.MkSQLDataSet 9), [("sqlite://", ())]) ∧
  SQLDataSet.__init__ (λ (url : string) (_ : unit), Ok (String.length url))
    (SQLDataSet.PyInt 5) ()
  = (Raise (ValueError "Invalid connection"), []).
Proof.
  split; [|split].
  - apply (init_by_class (λ (url : string) (_ : unit), Ok (String.length url))
             (SQLDataSet.PyConnectable 7) ()). reflexivity.
  - apply (proj1 (proj2 (init_by_class (λ (url : string) (_ : unit), Ok (String.length url))
             (SQLDataSet.PyStr "sqlite://") ())) "sqlite://"); reflexivity.
  - apply (proj2 (proj2 (init_by_class (λ (url : string) (_ : unit), Ok (String.length url))
             (SQLDataSet.PyInt 5) ()))); reflexivity.
Defined.

(** ** Which calls return, and how the others fail *)

Lemma np_unique_nonempty (feature : list float64) :
  feature ≠ [] → ∃ c cs, np_unique feature = c :: cs ∧ c ∈ feature.
Proof.
  intros Hne. destruct (np_unique feature) as [|c cs] eqn:Hu.
  - destruct feature as [|x feature]; [done|].
    assert (x ∈ np_unique (x :: feature)) as Hx by (apply np_unique_elem_of; left).
    rewrite Hu in Hx. by apply elem_of_nil in Hx.
  - exists c, cs. split; [done|]. apply np_unique_elem_of. rewrite Hu. left.
Qed.

(** An empty feature: nothing is indexed, drawn or reshaped. *)
Lemma plot_empty_feature (target : list float64) (title method : string)
    (agg : list float64 → float64) (n_boots : option Z) (g : RandomState) :
  nan_free target → agg_func_mapping !! method = Some agg →
  plot_target_feature_distribution target (FloatArr []) title method n_boots g
  = Ok (Chart [] [] title ("Target compared to " +:+ method)
          (match truthy n_boots with Some _ => Some [[]; []] | None => None end) (agg []), g).
Proof.
  intros Ht Hagg. rewrite plot_after_checks; [|done|apply not_elem_of_nil].
  unfold getitem. rewrite Hagg. simpl. by destruct (truthy n_boots).
Qed.

Lemma mapM_first_raises {A B} (f : A → result B) (x : A) (xs : list A) (e : exception) :
  f x = Raise e → mapM f (x :: xs) = Raise e.
Proof. intros H. simpl. by rewrite H. Qed.

Lemma for_each_first_raises {A S} (body : S → A → result S) (x : A) (xs : list A)
    (st : S) (e : exception) :
  body st x = Raise e → for_each body (x :: xs) st = Raise e.
Proof. intros H. simpl. by rewrite H. Qed.

Lemma plot_misaligned (target feature : list float64) (title method : string)
    (agg : list float64 → float64) (n_boots : option Z) (g : RandomState) :
  nan_free target → nan_free feature → agg_func_mapping !! method = Some agg →
  length (np_unique feature) ≤ 15 → feature ≠ [] → length target ≠ length feature →
  plot_target_feature_distribution target (FloatArr feature) title method n_boots g
  = Raise (IndexError "boolean index did not match indexed array").
Proof.
  intros Ht Hf Hagg H15 Hne Hlen. rewrite plot_after_checks by done.
  unfold getitem. rewrite Hagg. simpl. rewrite decide_False by lia.
  destruct (np_unique_nonempty feature Hne) as (c & cs & Hu & _). rewrite Hu.
  rewrite (mapM_first_raises _ _ _ (IndexError "boolean index did not match indexed array"));
    [done|].
  unfold bool_index.
  rewrite decide_False by (unfold equal_scalar; by rewrite length_map). done.
Qed.

Lemma bootstrap_body_negative (target feature : list float64) (n : Z)
    (st : list (list float64) * nat * RandomState) (q : Qc) :
  length target = length feature → Num q ∈ feature → (n < 0)%Z →
  bootstrap_body target feature n st (Num q)
  = Raise (ValueError "negative dimensions are not allowed").
Proof.
  intros Hlen Hc Hn. destruct st as [[percentile i] g]. unfold bootstrap_body.
  rewrite bool_index_restrict by done. simpl.
  pose proof (restrict_nonempty target feature (Num q) Hlen Hc) as Hr.
  unfold np_random_choice. rewrite decide_True; [done|].
  destruct (restrict target feature (Num q)); [done|]. simpl length. nia.
Qed.

Lemma plot_negative_n_boots (target feature : list float64) (title method : string)
    (agg : list float64 → float64) (n : Z) (g : RandomState) :
  nan_free target → nan_free feature → agg_func_mapping !! method = Some agg →
  length (np_unique feature) ≤ 15 → feature ≠ [] → length target = length feature →
  (n < 0)%Z →
  plot_target_feature_distribution target (FloatArr feature) title method (Some n) g
  = Raise (ValueError "negative dimensions are not allowed").
Proof.
  intros Ht Hf Hagg H15 Hne Hlen Hn. rewrite plot_after_checks by done.
  unfold getitem. rewrite Hagg. simpl. rewrite decide_False by lia.
  rewrite mapM_aggregate by (done || by apply np_unique_nan_free). simpl.
  rewrite decide_False by lia.
  pose proof (np_unique_nan_free feature Hf) as Hnu.
  destruct (np_unique_nonempty feature Hne) as (c & cs & Hu & Hc). rewrite Hu in *.
  apply nan_free_cons in Hnu as [Hcn _]. destruct c as [q|]; [|done].
  rewrite (for_each_first_raises _ _ _ _
             (ValueError "negative dimensions are not allowed")); [done|].
  by apply bootstrap_body_negative.
Qed.

Lemma recognized_method (method : string) :
  method = "mean" ∨ method = "median" ↔ ∃ agg, agg_func_mapping !! method = Some agg.
Proof.
  split.
  - intros [->| ->]; eauto using agg_func_mapping_mean, agg_func_mapping_median.
  - intros [agg [[-> _]|[-> _]]%agg_func_mapping_Some]; auto.
Qed.

(** What a returning call returns, on any input. *)
Lemma plot_Ok_explicit (target : list float64) (feature : ndarray) (title method : string)
    (n_boots : option Z) (g : RandomState) (ch : chart) (g' : RandomState) :
  plot_target_feature_distribution target feature title method n_boots g = Ok (ch, g') →
  ∃ f agg,
    feature = FloatArr f ∧ nan_free target ∧ nan_free f ∧
    agg_func_mapping !! method = Some agg ∧
    length (np_unique f) ≤ 15 ∧
    (f = [] ∨ (length target = length f ∧ n_boots_ok n_boots)) ∧
    (ch, g') =
      let categories := np_unique f in
      let '(xerr, g1) := error_bars target f n_boots categories g in
      (Chart categories (map (λ c, agg (restrict target f c)) categories)
             title ("Target compared to " +:+ method) xerr (agg f), g1).
Proof.
  intros H. pose proof H as (f & agg & -> & Ht & Hf & Hagg & H15 & _ & _)%plot_Ok_inv.
  exists f, agg. do 5 (split; [done|]).
  destruct (decide (f = [])) as [->|Hne].
  - split; [by left|]. rewrite (plot_empty_feature _ _ _ agg) in H by done.
    injection H as <- <-. unfold error_bars. simpl. by destruct (truthy n_boots).
  - assert (length target = length f) as Hlen.
    { destruct (decide (length target = length f)) as [|Hlen]; [done|].
      by rewrite (plot_misaligned _ _ _ _ agg) in H. }
    assert (n_boots_ok n_boots) as Hn.
    { intros n ->. destruct (decide (0 ≤ n)%Z) as [|Hneg]; [done|].
      rewrite (plot_negative_n_boots _ _ _ _ agg) in H by (done || lia). done. }
    split; [by right|]. rewrite (plot_returns _ _ _ _ agg) in H by done.
    cbv zeta in *. destruct (error_bars _ _ _ _ _) as [xerr g1]. by injection H as <- <-.
Qed.

(** The call on the coded example. *)
Lemma example_call :
  plot_target_feature_distribution example_target (FloatArr example_codes) default_title
    "mean" None g0
  = Ok (example_chart, g0).
Proof.
  pose proof example_with_codes as H. unfold outcome in H.
  destruct (plot_target_feature_distribution _ _ _ _ _ _) as [[ch g']|e] eqn:Hp; [|done].
  injection H as ->.
  apply plot_Ok_explicit in Hp as (f & agg & _ & _ & _ & _ & _ & _ & Heq).
  cbv zeta in Heq. unfold error_bars in Heq. simpl in Heq.
  apply (f_equal snd) in Heq. simpl in Heq. by rewrite Heq.
Qed.

(** X1. A call gets as far as the drawing layer exactly when: the feature
    is a float array, neither array holds a NaN, [method] is "mean" or
    "median", there are at most 15 distinct feature values and, unless the
    feature is empty, the two arrays have the same length and [n_boots] is
    not negative.  Every other call raises. *)
Theorem returns_iff (target : list float64) (feature : ndarray) (title method : string)
    (n_boots : option Z) (g : RandomState) :
  (∃ ch g', plot_target_feature_distribution target feature title method n_boots g
            = Ok (ch, g')) ↔
  ∃ f, feature = FloatArr f ∧ nan_free target ∧ nan_free f ∧
       (method = "mean" ∨ method = "median") ∧
       length (distinct_values f) ≤ 15 ∧
       (f = [] ∨ (length target = length f ∧ n_boots_ok n_boots)).
Proof.
  split.
  - intros (ch & g' & (f & agg & -> & Ht & Hf & Hagg & H15 & Hwf & _)%plot_Ok_explicit).
    exists f. rewrite <-(np_unique_distinct_values f Hf).
    repeat split; try done. apply recognized_method. eauto.
  - intros (f & -> & Ht & Hf & [agg Hagg]%recognized_method & H15 & Hwf).
    rewrite <-(np_unique_distinct_values f Hf) in H15.
    destruct Hwf as [->|[Hlen Hn]].
    + rewrite (plot_empty_feature _ _ _ agg) by done. eauto.
    + rewrite (plot_returns _ _ _ _ agg) by done. cbv zeta.
      destruct (error_bars _ _ _ _ _). eauto.
Qed.

(** X2. A target whose length differs from that of a non-empty feature
    makes the first boolean indexing [target[feature == category]] raise
    [IndexError], once the checks are passed, with or without a
    bootstrap. *)
Theorem misaligned_arrays_raise (target feature : list float64) (title method : string)
    (n_boots : option Z) (g : RandomState) :
  nan_free target → nan_free feature → method = "mean" ∨ method = "median" →
  length (distinct_values feature) ≤ 15 → feature ≠ [] →
  length target ≠ length feature →
  plot_target_feature_distribution target (FloatArr feature) title method n_boots g
  = Raise (IndexError "boolean index did not match indexed array").
Proof.
  intros Ht Hf [agg Hagg]%recognized_method H15 Hne Hlen.
  rewrite <-(np_unique_distinct_values feature Hf) in H15.
  by apply (plot_misaligned _ _ _ _ agg).
Qed.

Lemma misaligned_arrays_raise_witness :
  plot_target_feature_distribution example_target (FloatArr fifteen_codes) default_title
    "mean" None g0
  = Raise (IndexError "boolean index did not match indexed array").
Proof.
  apply (misaligned_arrays_raise example_target fifteen_codes default_title "mean" None g0).
  - apply nan_free_any. reflexivity.
  - apply nan_free_any. reflexivity.
  - left. reflexivity.
  - apply (bool_decide_unpack _). vm_compute. exact I.
  - discriminate.
  - vm_compute. lia.
Defined.

(** X3. A negative [n_boots] counts as true in [if n_boots:], and the
    negative [size] it gives [np.random.choice] makes the first iteration
    of the bootstrap loop raise [ValueError]; by then the aggregates have
    been computed. *)
Theorem negative_n_boots_raises (target feature : list float64) (title method : string)
    (n : Z) (g : RandomState) :
  nan_free target → nan_free feature → method = "mean" ∨ method = "median" →
  length (distinct_values feature) ≤ 15 → feature ≠ [] →
  length target = length feature → (n < 0)%Z →
  plot_target_feature_distribution target (FloatArr feature) title method (Some n) g
  = Raise (ValueError "negative dimensions are not allowed").
Proof.
  intros Ht Hf [agg Hagg]%recognized_method H15 Hne Hlen Hn.
  rewrite <-(np_unique_distinct_values feature Hf) in H15.
  by apply (plot_negative_n_boots _ _ _ _ agg).
Qed.

Lemma negative_n_boots_raises_witness :
  plot_target_feature_distribution example_target (FloatArr example_codes) default_title
    "median" (Some (-1)%Z) g0
  = Raise (ValueError "negative dimensions are not allowed").
Proof.
  apply (negative_n_boots_raises example_target example_codes default_title "median"
           (-1)%Z g0).
  - apply nan_free_any. reflexivity.
  - apply nan_free_any. reflexivity.
  - right. reflexivity.
  - apply (bool_decide_unpack _). vm_compute. exact I.
  - discriminate.
  - reflexivity.
  - lia.
Defined.

Lemma agg_empty (method : string) (agg : list float64 → float64) :
  agg_func_mapping !! method = Some agg → agg [] = NaN.
Proof. by intros [[_ ->]|[_ ->]]%agg_func_mapping_Some. Qed.

(** X4. On an empty feature, with a NaN-free target of any length and a
    [method] "mean" or "median", the computation raises nothing: nothing is
    indexed and the bootstrap loop has no category to run on, even where
    [n_boots] is negative.  What it hands to the drawing calls is no
    category, no aggregate, NaN (the aggregate of an empty array) as the
    value for [axvline] and, if [n_boots] is true, a 2-by-0 array of error
    bars; the generator is left as it was. *)
Theorem empty_feature_gives_empty_chart (target : list float64) (title method : string)
    (n_boots : option Z) (g : RandomState) :
  nan_free target → method = "mean" ∨ method = "median" →
  plot_target_feature_distribution target (FloatArr []) title method n_boots g
  = Ok (Chart [] [] title ("Target compared to " +:+ method)
          (match truthy n_boots with Some _ => Some [[]; []] | None => None end) NaN, g).
Proof.
  intros Ht [agg Hagg]%recognized_method.
  rewrite (plot_empty_feature _ _ _ agg) by done. by rewrite (agg_empty method agg).
Qed.

Lemma empty_feature_gives_empty_chart_witness :
  plot_target_feature_distribution example_target (FloatArr []) default_title "mean"
    (Some (-1)%Z) g0
  = Ok (Chart [] [] default_title "Target compared to mean" (Some [[]; []]) NaN, g0).
Proof.
  apply (empty_feature_gives_empty_chart example_target default_title "mean"
           (Some (-1)%Z) g0).
  - apply nan_free_any. reflexivity.
  - left. reflexivity.
Defined.

Lemma plot_over_limit (target feature : list float64) (title method : string)
    (agg : list float64 → float64) (n_boots : option Z) (g : RandomState) :
  nan_free target → nan_free feature → agg_func_mapping !! method = Some agg →
  15 < length (np_unique feature) →
  plot_target_feature_distribution target (FloatArr feature) title method n_boots g
  = Raise (VizError limit_msg).
Proof.
  intros Ht Hf Hagg H15. rewrite plot_after_checks by done.
  unfold getitem. rewrite Hagg. simpl. by rewrite decide_True.
Qed.

Lemma plot_within_limit_not_VizError (target feature : list float64) (title method : string)
    (n_boots : option Z) (g : RandomState) (e : exception) :
  nan_free target → nan_free feature → length (np_unique feature) ≤ 15 →
  plot_target_feature_distribution target (FloatArr feature) title method n_boots g
  = Raise e →
  ¬ is_VizError e.
Proof.
  intros Ht Hf H15. rewrite plot_after_checks by done. unfold getitem.
  destruct (agg_func_mapping !! method) as [agg|]; simpl; [|intros [= <-]; simpl; tauto].
  rewrite decide_False by lia.
  destruct (mapM _ _) as [data|e'] eqn:Hdata; simpl.
  2:{ intros [= <-]. by eapply mapM_bool_index_not_VizError. }
  destruct (truthy n_boots) as [n|]; simpl; [|done].
  destruct (for_each _ _ _) as [[[p i] g1]|e'] eqn:Hloop; simpl; [done|].
  intros [= <-]. by eapply for_each_bootstrap_not_VizError.
Qed.

(** X5. The call raises a [VizError] exactly in these cases: the target
    holds a NaN; the feature is a float array that holds a NaN; the feature
    is a float array with more than 15 distinct values and [method] is
    "mean" or "median".  A call that fails in none of these cases (on a
    string feature with a NaN-free target, say, or on NaN-free arrays with
    an unknown method) fails with an exception of another class. *)
Theorem VizError_iff (target : list float64) (feature : ndarray) (title method : string)
    (n_boots : option Z) (g : RandomState) :
  (∃ e, plot_target_feature_distribution target feature title method n_boots g = Raise e ∧
        is_VizError e) ↔
  NaN ∈ target ∨ contains_nan feature ∨
  (∃ f, feature = FloatArr f ∧ (method = "mean" ∨ method = "median") ∧
        15 < length (distinct_values f)).
Proof.
  split.
  - intros (e & He & Hviz).
    destruct (decide (NaN ∈ target)) as [|Ht]; [by left|].
    destruct feature as [f|labels].
    2:{ rewrite string_feature_raises in He by done. by injection He as <-. }
    destruct (decide (NaN ∈ f)) as [|Hf]; [right; by left|].
    right. right. exists f. split; [done|].
    destruct (agg_func_mapping !! method) as [agg|] eqn:Hagg.
    + split; [apply recognized_method; eauto|].
      rewrite <-(np_unique_distinct_values f Hf).
      destruct (decide (15 < length (np_unique f))) as [|H15]; [done|].
      exfalso.
      apply (plot_within_limit_not_VizError target f title method n_boots g e Ht Hf
               ltac:(lia) He Hviz).
    + exfalso. rewrite plot_after_checks in He by done.
      unfold getitem in He. rewrite Hagg in He. by injection He as <-.
  - intros H.
    assert (NaN ∈ target ∨ contains_nan feature ∨
            ∃ f, feature = FloatArr f ∧ nan_free target ∧ nan_free f ∧
                 (method = "mean" ∨ method = "median") ∧
                 15 < length (distinct_values f)) as [Hn|[Hn|Hl]].
    { destruct H as [?|[?|(f & -> & Hm & H15)]]; [by left|right; by left|].
      destruct (decide (NaN ∈ target)); [by left|].
      destruct (decide (NaN ∈ f)); [right; by left|].
      right. right. by exists f. }
    + exists (VizError nan_msg). split; [|done]. apply nan_check_raises. by left.
    + exists (VizError nan_msg). split; [|done]. apply nan_check_raises. by right.
    + destruct Hl as (f & -> & Ht & Hf & [agg Hagg]%recognized_method & H15).
      exists (VizError limit_msg). split; [|done].
      apply (plot_over_limit _ _ _ _ agg); [done|done|done|].
      by rewrite np_unique_distinct_values.
Qed.

(** X6. Whatever is handed to the drawing layer has at most 15 categories
    and one aggregate per category; with a true [n_boots] the error bars
    are two rows of one value per category, and otherwise there are none
    and the generator is left untouched. *)
Theorem chart_shape (target : list float64) (feature : ndarray) (title method : string)
    (n_boots : option Z) (g : RandomState) (ch : chart) (g' : RandomState) :
  plot_target_feature_distribution target feature title method n_boots g = Ok (ch, g') →
  length (chart_categories ch) ≤ 15 ∧
  length (chart_data ch) = length (chart_categories ch) ∧
  match truthy n_boots with
  | Some _ => ∃ lows highs, chart_xerr ch = Some [lows; highs] ∧
                            length lows = length (chart_categories ch) ∧
                            length highs = length (chart_categories ch)
  | None => chart_xerr ch = None ∧ g' = g
  end.
Proof.
  intros (f & agg & -> & Ht & Hf & Hagg & H15 & _ & Heq)%plot_Ok_explicit.
  cbv zeta in Heq. unfold error_bars in Heq.
  destruct (truthy n_boots) as [n|].
  - pose proof (intervals_length target f (Z.to_nat n) (np_unique f) g) as Hl.
    destruct (intervals _ _ _ _ _) as [ivs g1]. injection Heq as -> ->. simpl in *.
    split; [done|]. split; [by rewrite length_map|].
    eexists _, _. split; [done|]. by rewrite !length_fmap.
  - injection Heq as -> ->. simpl. split; [done|]. split; [by rewrite length_map|done].
Qed.

Lemma chart_shape_witness :
  plot_target_feature_distribution example_target (FloatArr example_codes) default_title
    "mean" None g0 = Ok (example_chart, g0) ∧
  length (chart_categories example_chart) ≤ 15 ∧
  length (chart_data example_chart) = length (chart_categories example_chart) ∧
  chart_xerr example_chart = None ∧ g0 = g0.
Proof.
  split; [exact example_call|].
  apply (chart_shape example_target (FloatArr example_codes) default_title "mean" None g0
           example_chart g0).
  exact example_call.
Defined.


(** ** The drawing calls *)

Lemma axvline_y (v : float64) :
  axvline [("y", KwFloat v); ("linestyle", KwStr "--"); ("color", KwStr "red")]
  = Raise (AttributeError "Line2D.set() got an unexpected keyword argument 'y'").
Proof. reflexivity. Qed.

(** Passed as [x], the value is accepted. *)
Lemma axvline_x (v : float64) :
  axvline [("x", KwFloat v); ("linestyle", KwStr "--"); ("color", KwStr "red")] = Ok ().
Proof. reflexivity. Qed.

(** X8. No call returns.  A call whose computation succeeds and whose bars
    [_plot_barh] draws passes the reference value to [axvline] under the
    keyword [y], which is neither a parameter of [axvline] nor a property of
    the line it creates: line 97 raises [AttributeError], whatever
    [_plot_barh] does.  Every other call has raised before. *)
Theorem axvline_keyword_raises {Axes : Type}
    (_plot_barh : list float64 → list float64 → string → string → Axes →
                  option (list (list float64)) → result Axes)
    (target : list float64) (feature : ndarray) (title method : string) (ax : Axes)
    (n_boots : option Z) (g : RandomState) :
  is_Raise (draw_target_feature_distribution _plot_barh target feature title method ax
              n_boots g) ∧
  ∀ ch g' ax',
    plot_target_feature_distribution target feature title method n_boots g = Ok (ch, g') →
    _plot_barh (chart_categories ch) (chart_data ch) (chart_title ch) (chart_x_label ch)
      ax (chart_xerr ch) = Ok ax' →
    draw_target_feature_distribution _plot_barh target feature title method ax n_boots g
    = Raise (AttributeError "Line2D.set() got an unexpected keyword argument 'y'").
Proof.
  unfold draw_target_feature_distribution. split.
  - destruct (plot_target_feature_distribution _ _ _ _ _ _) as [[ch g']|e]; [|done].
    cbn -[axvline]. destruct (_plot_barh _ _ _ _ _ _) as [ax'|e]; [|done].
    cbn -[axvline]. by rewrite axvline_y.
  - intros ch g' ax' -> Hbar. cbn -[axvline]. rewrite Hbar.
    cbn -[axvline]. by rewrite axvline_y.
Qed.

(** ** The order of the rows *)

#[global] Instance float_le_antisymm : AntiSymm (=) float_le.
Proof.
  intros [a|] [b|]; simpl; try done. intros H1 H2. f_equal. by apply Qcle_antisym.
Qed.

Lemma np_sort_perm (a b : list float64) : a ≡ₚ b → np_sort a = np_sort b.
Proof.
  intros Hp. apply (Sorted_unique float_le); [apply np_sort_Sorted..|].
  by rewrite !np_sort_Permutation.
Qed.

Lemma np_unique_perm (a b : list float64) : a ≡ₚ b → np_unique a = np_unique b.
Proof. intros Hp. unfold np_unique. by rewrite (np_sort_perm a b). Qed.

Lemma any_isnan_perm (a b : list float64) :
  a ≡ₚ b → any (map isnan a) = any (map isnan b).
Proof.
  intros Hp. destruct (any (map isnan b)) eqn:Hb.
  - apply any_isnan_true. rewrite Hp. by apply any_isnan_true.
  - apply nan_free_any. eapply nan_free_Permutation; [symmetry; done|]. by apply nan_free_any.
Qed.

Lemma np_median_perm (a b : list float64) : a ≡ₚ b → np_median a = np_median b.
Proof.
  intros Hp. unfold np_median.
  by rewrite (any_isnan_perm a b Hp), (np_sort_perm a b Hp), (Permutation_length Hp).
Qed.

Lemma restrict_perm (target feature target' feature' : list float64) (c : float64) :
  zip target feature ≡ₚ zip target' feature' →
  restrict target feature c ≡ₚ restrict target' feature' c.
Proof. intros Hp. unfold restrict. by rewrite Hp. Qed.

(** A call without a bootstrap on the same rows in another order: both
    calls raise the same exception, or both return, with the same
    categories and with aggregates of the same values in another order. *)
Lemma plot_perm (target feature target' feature' : list float64)
    (title method : string) (n_boots : option Z) (g : RandomState) :
  length target = length feature → length target' = length feature' →
  zip target feature ≡ₚ zip target' feature' → truthy n_boots = None →
  (∃ e,
     plot_target_feature_distribution target (FloatArr feature) title method n_boots g
     = Raise e ∧
     plot_target_feature_distribution target' (FloatArr feature') title method n_boots g
     = Raise e) ∨
  (∃ agg,
     agg_func_mapping !! method = Some agg ∧
     feature ≡ₚ feature' ∧
     (∀ c, restrict target feature c ≡ₚ restrict target' feature' c) ∧
     plot_target_feature_distribution target (FloatArr feature) title method n_boots g
     = Ok (Chart (np_unique feature)
             (map (λ c, agg (restrict target feature c)) (np_unique feature))
             title ("Target compared to " +:+ method) None (agg feature), g) ∧
     plot_target_feature_distribution target' (FloatArr feature') title method n_boots g
     = Ok (Chart (np_unique feature)
             (map (λ c, agg (restrict target' feature' c)) (np_unique feature))
             title ("Target compared to " +:+ method) None (agg feature'), g)).
Proof.
  intros Hlen Hlen' Hp Hnb.
  assert (target ≡ₚ target') as Hpt.
  { rewrite <-(fst_zip target feature), <-(fst_zip target' feature') by lia. by rewrite Hp. }
  assert (feature ≡ₚ feature') as Hpf.
  { rewrite <-(snd_zip target feature), <-(snd_zip target' feature') by lia. by rewrite Hp. }
  destruct (decide (NaN ∈ target ∨ NaN ∈ feature)) as [Hnan|Hnan].
  { left. exists (VizError nan_msg). rewrite !nan_check_raises; [done| |done].
    simpl. by rewrite <-Hpt, <-Hpf. }
  assert (nan_free target ∧ nan_free feature) as [Ht Hf] by (unfold nan_free; tauto).
  assert (nan_free target' ∧ nan_free feature') as [Ht' Hf'].
  { split; eapply nan_free_Permutation; done. }
  rewrite !plot_after_checks by done. unfold getitem.
  destruct (agg_func_mapping !! method) as [agg|] eqn:Hagg; [|left; by eexists]. simpl.
  rewrite <-(np_unique_perm feature feature') by done.
  destruct (decide _); [left; by eexists|].
  rewrite !mapM_aggregate by (done || by apply np_unique_nan_free). simpl.
  rewrite Hnb. simpl. right. exists agg. split; [done|]. split; [done|].
  split; [|done]. intros c. by apply restrict_perm.
Qed.

(** X7. Without a bootstrap the order of the rows does not matter: a call
    on the same (target, feature) rows in another order ends in the same
    exception or the same categories, and under "median" hands over the
    very same chart.  (Under "mean" the aggregates are sums over the rows,
    and the rounding of a float64 sum can depend on their order: nothing
    is stated about them.) *)
Theorem row_order_is_irrelevant (target feature target' feature' : list float64)
    (title method : string) (n_boots : option Z) (g : RandomState) :
  length target = length feature → length target' = length feature' →
  zip target feature ≡ₚ zip target' feature' → truthy n_boots = None →
  chart_categories <$>
    outcome (plot_target_feature_distribution target (FloatArr feature) title method
               n_boots g)
  = chart_categories <$>
      outcome (plot_target_feature_distribution target' (FloatArr feature') title method
                 n_boots g) ∧
  (method = "median" →
   plot_target_feature_distribution target (FloatArr feature) title method n_boots g
   = plot_target_feature_distribution target' (FloatArr feature') title method n_boots g).
Proof.
  intros Hlen Hlen' Hp Hnb.
  destruct (plot_perm target feature target' feature' title method n_boots g
              Hlen Hlen' Hp Hnb)
    as [(e & -> & ->)|(agg & Hagg & Hpf & Hr & -> & ->)]; [done|].
  split; [done|]. intros ->. rewrite agg_func_mapping_median in Hagg.
  injection Hagg as <-. do 2 f_equal.
  rewrite (np_median_perm feature feature') by done. f_equal.
  apply map_ext. intros c. by apply np_median_perm.
Qed.

Lemma row_order_is_irrelevant_witness :
  chart_categories <$>
    outcome (plot_target_feature_distribution [of_Z 1; of_Z 5] (FloatArr [of_Z 0; of_Z 1])
               default_title "median" None g0)
  = chart_categories <$>
      outcome (plot_target_feature_distribution [of_Z 5; of_Z 1]
                 (FloatArr [of_Z 1; of_Z 0]) default_title "median" None g0) ∧
  ("median" = "median" →
   plot_target_feature_distribution [of_Z 1; of_Z 5] (FloatArr [of_Z 0; of_Z 1])
     default_title "median" None g0
   = plot_target_feature_distribution [of_Z 5; of_Z 1] (FloatArr [of_Z 1; of_Z 0])
       default_title "median" None g0).
Proof.
  apply (row_order_is_irrelevant [of_Z 1; of_Z 5] [of_Z 0; of_Z 1] [of_Z 5; of_Z 1]
           [of_Z 1; of_Z 0] default_title "median" None g0).
  - reflexivity.
  - reflexivity.
  - simpl. apply perm_swap.
  - reflexivity.
Defined.


(** ** How much of the generator a call uses *)

Lemma randints_state (high size : nat) (g : RandomState) :
  (randints high size g).2 = λ k, g (size + k).
Proof.
  revert g. induction size as [|size IH]; intros g; simpl; [done|].
  specialize (IH (λ k, g (S k))). destruct (randints high size _) as [idx g2].
  simpl in *. by rewrite IH.
Qed.

Lemma randints_ext (high size : nat) (g1 g2 : RandomState) :
  (∀ k, k < size → g1 k = g2 k) → (randints high size g1).1 = (randints high size g2).1.
Proof.
  revert g1 g2. induction size as [|size IH]; intros g1 g2 Hg; simpl; [done|].
  specialize (IH (λ k, g1 (S k)) (λ k, g2 (S k)) ltac:(intros k ?; apply Hg; lia)).
  destruct (randints high size (λ k, g1 (S k))) as [idx1 h1].
  destruct (randints high size (λ k, g2 (S k))) as [idx2 h2].
  simpl in *. rewrite IH, (Hg 0) by lia. done.
Qed.

Lemma category_interval_state (subset : list float64) (n_boots : nat) (g : RandomState) :
  (category_interval subset n_boots g).2 = λ k, g (n_boots * length subset + k).
Proof.
  unfold category_interval, draw_with_replacement.
  pose proof (randints_state (length subset) (n_boots * length subset) g) as H.
  destruct (randints _ _ _) as [idx g']. simpl in *. done.
Qed.

Lemma category_interval_ext (subset : list float64) (n_boots : nat) (g1 g2 : RandomState) :
  (∀ k, k < n_boots * length subset → g1 k = g2 k) →
  (category_interval subset n_boots g1).1 = (category_interval subset n_boots g2).1.
Proof.
  intros Hg. unfold category_interval, draw_with_replacement.
  pose proof (randints_ext (length subset) (n_boots * length subset) g1 g2 Hg) as H.
  destruct (randints _ _ g1) as [idx1 h1]. destruct (randints _ _ g2) as [idx2 h2].
  simpl in *. by rewrite H.
Qed.

Lemma intervals_state (target feature : list float64) (n_boots : nat)
    (categories : list float64) (g : RandomState) (k : nat) :
  (intervals target feature n_boots categories g).2 k
  = g (draws_taken target feature n_boots categories + k).
Proof.
  unfold draws_taken. revert g k.
  induction categories as [|c cs IH]; intros g k; simpl; [by rewrite Nat.mul_0_r|].
  pose proof (category_interval_state (restrict target feature c) n_boots g) as Hs.
  destruct (category_interval _ _ g) as [iv g1]. simpl in Hs. subst g1.
  specialize (IH (λ k, g (n_boots * length (restrict target feature c) + k)) k).
  destruct (intervals _ _ _ cs _) as [ivs g2]. simpl in *. rewrite IH. f_equal. lia.
Qed.

Lemma intervals_ext (target feature : list float64) (n_boots : nat)
    (categories : list float64) (g1 g2 : RandomState) :
  (∀ k, k < draws_taken target feature n_boots categories → g1 k = g2 k) →
  (intervals target feature n_boots categories g1).1
  = (intervals target feature n_boots categories g2).1.
Proof.
  unfold draws_taken. revert g1 g2.
  induction categories as [|c cs IH]; intros g1 g2 Hg; simpl; [done|].
  simpl in Hg.
  pose proof (category_interval_ext (restrict target feature c) n_boots g1 g2
                ltac:(intros k ?; apply Hg; nia)) as Hiv.
  pose proof (category_interval_state (restrict target feature c) n_boots g1) as Hs1.
  pose proof (category_interval_state (restrict target feature c) n_boots g2) as Hs2.
  destruct (category_interval _ _ g1) as [iv1 h1].
  destruct (category_interval _ _ g2) as [iv2 h2]. simpl in *. subst.
  specialize (IH (λ k, g1 (n_boots * length (restrict target feature c) + k))
                 (λ k, g2 (n_boots * length (restrict target feature c) + k))
                 ltac:(intros k ?; apply Hg; nia)).
  destruct (intervals _ _ _ cs (λ k, g1 _)) as [ivs1 k1].
  destruct (intervals _ _ _ cs (λ k, g2 _)) as [ivs2 k2]. simpl in *. by rewrite IH.
Qed.

(** Every row belongs to exactly one category. *)
Lemma restrict_cons (t x : float64) (target feature : list float64) (c : float64) :
  length (restrict (t :: target) (x :: feature) c)
  = (if decide (x = c) then 1 else 0) + length (restrict target feature c).
Proof.
  unfold restrict. simpl. rewrite filter_cons. simpl. by destruct (decide (x = c)).
Qed.

Lemma sum_indicator (x : float64) (categories : list float64) :
  NoDup categories → x ∈ categories →
  sum_list_with (λ c, if decide (x = c) then 1 else 0) categories = 1.
Proof.
  induction 1 as [|c cs Hc Hnd IH]; intros Hx; [by apply elem_of_nil in Hx|].
  simpl. destruct (decide (x = c)) as [->|Hne].
  - assert (sum_list_with (λ c0, if decide (c = c0) then 1 else 0) cs = 0) as ->; [|done].
    clear IH Hx Hnd. induction cs as [|d cs IH]; [done|]. simpl.
    apply not_elem_of_cons in Hc as [Hd Hc]. rewrite decide_False by done. by apply IH.
  - apply elem_of_cons in Hx as [?|Hx]; [done|]. by rewrite IH.
Qed.

Lemma sum_restrict_lengths (target feature categories : list float64) :
  length target = length feature → NoDup categories → feature ⊆ categories →
  sum_list_with (λ c, length (restrict target feature c)) categories = length feature.
Proof.
  intros Hlen Hnd. revert target Hlen.
  induction feature as [|x feature IH]; intros [|t target] Hlen Hsub; simplify_eq/=.
  - clear. induction categories as [|c cs IHc]; [done|]. simpl. apply IHc.
  - assert (sum_list_with (λ c, length (restrict (t :: target) (x :: feature) c)) categories
            = sum_list_with (λ c, if decide (x = c) then 1 else 0) categories
              + sum_list_with (λ c, length (restrict target feature c)) categories) as ->.
    { clear. induction categories as [|c cs IHc]; [done|]. cbn [sum_list_with].
      rewrite restrict_cons, IHc. lia. }
    rewrite sum_indicator by (done || apply Hsub; left).
    rewrite IH; [done|done|]. intros y Hy. apply Hsub. by right.
Qed.

Lemma draws_taken_unique (target feature : list float64) (n_boots : nat) :
  nan_free feature → length target = length feature →
  draws_taken target feature n_boots (np_unique feature) = n_boots * length feature.
Proof.
  intros Hf Hlen. unfold draws_taken. f_equal. apply sum_restrict_lengths; [done| |].
  - by apply np_unique_NoDup.
  - intros c. apply np_unique_elem_of.
Qed.

(** X9. A bootstrap of [n] iterations draws [n] indices for every row of
    the arrays, all categories together: the call returns, and leaves the
    generator where [n * len(feature)] draws have taken it. *)
Theorem draws_consumed (target feature : list float64) (title method : string)
    (n : Z) (g : RandomState) :
  nan_free target → nan_free feature → length target = length feature →
  length (distinct_values feature) ≤ 15 →
  method = "mean" ∨ method = "median" → (0 < n)%Z →
  ∃ ch g',
    plot_target_feature_distribution target (FloatArr feature) title method (Some n) g
      = Ok (ch, g') ∧
    ∀ k, g' k = g (Z.to_nat n * length feature + k).
Proof.
  intros Ht Hf Hlen H15 Hm Hn.
  assert (∃ agg, agg_func_mapping !! method = Some agg) as [agg Hagg].
  { destruct Hm as [->| ->]; eauto using agg_func_mapping_mean, agg_func_mapping_median. }
  rewrite <-(np_unique_distinct_values feature Hf) in H15.
  rewrite (plot_returns _ _ _ _ agg); [|done..|intros ? [= <-]; lia].
  cbv zeta. unfold error_bars. simpl. rewrite decide_False by lia.
  pose proof (intervals_state target feature (Z.to_nat n) (np_unique feature) g) as Hs.
  destruct (intervals _ _ _ _ _) as [ivs g']. eexists _, _. split; [done|].
  intros k. simpl in Hs. by rewrite Hs, draws_taken_unique.
Qed.

Lemma draws_consumed_witness :
  ∃ ch g',
    plot_target_feature_distribution example_target (FloatArr example_codes) default_title
      "mean" (Some 2%Z) g0
      = Ok (ch, g') ∧
    ∀ k, g' k = g0 (Z.to_nat 2 * length example_codes + k).
Proof.
  apply (draws_consumed example_target example_codes default_title "mean" 2%Z g0).
  - apply nan_free_any. reflexivity.
  - apply nan_free_any. reflexivity.
  - reflexivity.
  - apply (bool_decide_unpack _). vm_compute. exact I.
  - left. reflexivity.
  - lia.
Defined.

(** X10. The chart of a bootstrap of [n] iterations depends on the
    generator through its first [n * len(feature)] draws only: two
    generators that agree on them give the same chart. *)
Theorem chart_reads_first_draws (target feature : list float64) (title method : string)
    (n : Z) (g1 g2 : RandomState) :
  nan_free target → nan_free feature → length target = length feature →
  length (distinct_values feature) ≤ 15 →
  method = "mean" ∨ method = "median" → (0 < n)%Z →
  (∀ k, k < Z.to_nat n * length feature → g1 k = g2 k) →
  outcome (plot_target_feature_distribution target (FloatArr feature) title method
             (Some n) g1)
  = outcome (plot_target_feature_distribution target (FloatArr feature) title method
               (Some n) g2).
Proof.
  intros Ht Hf Hlen H15 Hm Hn Hg.
  assert (∃ agg, agg_func_mapping !! method = Some agg) as [agg Hagg].
  { destruct Hm as [->| ->]; eauto using agg_func_mapping_mean, agg_func_mapping_median. }
  rewrite <-(np_unique_distinct_values feature Hf) in H15.
  rewrite (plot_returns _ _ _ _ agg _ g1); [|done..|intros ? [= <-]; lia].
  rewrite (plot_returns _ _ _ _ agg _ g2); [|done..|intros ? [= <-]; lia].
  cbv zeta. unfold error_bars. simpl. rewrite decide_False by lia.
  pose proof (intervals_ext target feature (Z.to_nat n) (np_unique feature) g1 g2) as He.
  rewrite draws_taken_unique in He by done. specialize (He Hg).
  destruct (intervals _ _ _ _ g1) as [ivs1 h1].
  destruct (intervals _ _ _ _ g2) as [ivs2 h2]. simpl in *. by rewrite He.
Qed.

Lemma chart_reads_first_draws_witness :
  outcome (plot_target_feature_distribution example_target (FloatArr example_codes)
             default_title "mean" (Some 2%Z) g0)
  = outcome (plot_target_feature_distribution example_target (FloatArr example_codes)
               default_title "mean" (Some 2%Z) g0_then_zero).
Proof.
  apply (chart_reads_first_draws example_target example_codes default_title "mean" 2%Z
           g0 g0_then_zero).
  - apply nan_free_any. reflexivity.
  - apply nan_free_any. reflexivity.
  - reflexivity.
  - apply (bool_decide_unpack _). vm_compute. exact I.
  - left. reflexivity.
  - lia.
  - intros k Hk. change (Z.to_nat 2 * length example_codes) with 12 in Hk.
    unfold g0_then_zero. rewrite decide_True by lia. reflexivity.
Defined.


(** ** The categories split the rows *)

Lemma restrict_cons_eq (t x : float64) (target feature : list float64) (c : float64) :
  restrict (t :: target) (x :: feature) c
  = (if decide (x = c) then [t] else []) ++ restrict target feature c.
Proof.
  unfold restrict. simpl. rewrite filter_cons. simpl. by destruct (decide (x = c)).
Qed.

Lemma concat_indicator (t x : float64) (categories : list float64) :
  NoDup categories → x ∈ categories →
  concat (map (λ c, if decide (x = c) then [t] else []) categories) = [t].
Proof.
  induction 1 as [|c cs Hc Hnd IH]; intros Hx; [by apply elem_of_nil in Hx|].
  simpl. destruct (decide (x = c)) as [->|Hne].
  - assert (concat (map (λ c0, if decide (c = c0) then [t] else []) cs) = []) as ->; [|done].
    clear IH Hx Hnd. induction cs as [|d cs IH]; [done|]. simpl.
    apply not_elem_of_cons in Hc as [Hd Hc]. rewrite decide_False by done. by apply IH.
  - apply elem_of_cons in Hx as [?|Hx]; [done|]. by rewrite IH.
Qed.

Lemma concat_restrict (target feature categories : list float64) :
  length target = length feature → NoDup categories → feature ⊆ categories →
  concat (map (restrict target feature) categories) ≡ₚ target.
Proof.
  intros Hlen Hnd. revert target Hlen.
  induction feature as [|x feature IH]; intros [|t target] Hlen Hsub; simplify_eq/=.
  - clear. induction categories as [|c cs IHc]; [done|]. simpl. apply IHc.
  - assert (concat (map (restrict (t :: target) (x :: feature)) categories)
            ≡ₚ concat (map (λ c, if decide (x = c) then [t] else []) categories)
               ++ concat (map (restrict target feature) categories)) as ->.
    { clear. induction categories as [|c cs IHc]; [done|]. cbn [map concat].
      rewrite restrict_cons_eq, IHc.
      rewrite <-!(assoc app). f_equiv. rewrite !(assoc app). f_equiv.
      apply Permutation_app_comm. }
    rewrite concat_indicator by (done || apply Hsub; left). simpl. f_equiv.
    apply IH; [done|]. intros y Hy. apply Hsub. by right.
Qed.

(** X11. The categories split the rows: the subsets
    [target[feature == category]] of the categories handed over, put
    together, are the target, every row once. *)
Theorem categories_split_rows (target : list float64) (feature : ndarray)
    (title method : string) (n_boots : option Z) (g : RandomState)
    (ch : chart) (g' : RandomState) :
  plot_target_feature_distribution target feature title method n_boots g = Ok (ch, g') →
  ∃ f, feature = FloatArr f ∧
       (f ≠ [] → concat (map (restrict target f) (chart_categories ch)) ≡ₚ target).
Proof.
  intros H. pose proof H as (f & agg & -> & _ & Hf & _ & _ & Hwf & _)%plot_Ok_explicit.
  apply plot_Ok_inv in H as (f' & _ & [= <-] & _ & _ & _ & _ & Hcat & _).
  exists f. split; [done|]. intros Hne. rewrite Hcat.
  destruct Hwf as [?|[Hlen _]]; [done|].
  apply concat_restrict; [done|by apply np_unique_NoDup|].
  intros c. apply np_unique_elem_of.
Qed.

Lemma categories_split_rows_witness :
  plot_target_feature_distribution example_target (FloatArr example_codes) default_title
    "mean" None g0 = Ok (example_chart, g0) ∧
  ∃ f, FloatArr example_codes = FloatArr f ∧
       (f ≠ [] →
        concat (map (restrict example_target f) (chart_categories example_chart))
        ≡ₚ example_target).
Proof.
  split; [exact example_call|].
  apply (categories_split_rows example_target (FloatArr example_codes) default_title
           "mean" None g0 example_chart g0).
  exact example_call.
Defined.

(** ** [SQLDataSet.__repr__] *)

Lemma string_length_app (a b : string) :
  String.length (a +:+ b) = String.length a + String.length b.
Proof. induction a as [|x a IH]; simpl; [done|]. by rewrite IH. Qed.

Lemma string_app_inj_r (s a b : string) : a +:+ s = b +:+ s → a = b.
Proof.
  revert b. induction a as [|x a IH]; intros [|y b] H; simpl in *.
  - done.
  - apply (f_equal String.length) in H. simpl in H.
    rewrite !string_length_app in H. simpl in H. lia.
  - apply (f_equal String.length) in H. simpl in H.
    rewrite !string_length_app in H. simpl in H. lia.
  - injection H as -> H. f_equal. by apply IH.
Qed.

(** X12. The [repr] of an instance tells its class: the instances of two
    subclasses of [SQLDataSet] print alike exactly when the classes have
    the same name. *)
Theorem repr_names_the_class (a b : string) :
  SQLDataSet.__repr__ a = SQLDataSet.__repr__ b ↔ a = b.
Proof.
  split; [|by intros ->].
  unfold SQLDataSet.__repr__. intros H. injection H as H.
  exact (string_app_inj_r " - SQLDataset>" a b H).
Qed.
